(** * Capstone-Software: the command queue, the board inference, the link
    protocol and the turn tasks of the chess gantry firmware.

    The C sources are embedded as Rocq functions.  Machine integers are [Z]
    with their wrap-around written out, arrays are lists updated by index,
    the file-scope variables of each C module are the fields of a state
    record that is passed explicitly. *)

From Stdlib Require Import ZArith Lia List Bool Ascii.
From stdpp Require Import base list.
Import ListNotations.

Local Open Scope Z_scope.

(** ** Machine integers *)

Definition u8 (z : Z) : Z := z mod 256.
Definition u16 (z : Z) : Z := z mod 65536.
Definition u64 (z : Z) : Z := z mod 2 ^ 64.

(** A C [char] constant as its code. *)
Definition ch (c : ascii) : Z := Z.of_N (N_of_ascii c).

(* ===================================================================== *)
(** ** command_queue.c *)
(* ===================================================================== *)

Module CommandQueue.

(** [#define COMMAND_QUEUE_SIZE (128)] *)
Definition COMMAND_QUEUE_SIZE : Z := 128.

Section Queue.

(** The element type stands for [command_t*]; its inhabitant is the value a
    slot of the static array holds before anything is written to it. *)
Context {A : Type} `{Inhabited A}.

(** [static command_t* queue[COMMAND_QUEUE_SIZE]; static uint16_t head, tail;] *)
Record state : Type := mkState {
  queue : list A;
  head  : Z;
  tail  : Z
}.

(** The array as the C start-up code leaves it. *)
Definition static_queue : list A := replicate (Z.to_nat COMMAND_QUEUE_SIZE) inhabitant.

(** [command_queue_init]: only the two cursors are reset. *)
Definition command_queue_init (s : state) : state :=
  {| queue := queue s; head := 0; tail := 0 |}.

Definition boot : state :=
  command_queue_init {| queue := static_queue; head := 0; tail := 0 |}.

(** [command_queue_get_size] *)
Definition command_queue_get_size (s : state) : Z :=
  if tail s <=? head s
  then u16 (head s - tail s)
  else u16 (COMMAND_QUEUE_SIZE - (tail s - head s) + 1).

(** [command_queue_is_empty] *)
Definition command_queue_is_empty (s : state) : bool := head s =? tail s.

(** [command_queue_push]: the returned flag is the C return value. *)
Definition command_queue_push (value : A) (s : state) : bool * state :=
  if command_queue_get_size s =? COMMAND_QUEUE_SIZE
  then (false, s)
  else
    let q := <[Z.to_nat (head s) := value]> (queue s) in
    let h := u16 (head s + 1) in
    let h := if COMMAND_QUEUE_SIZE <=? h then 0 else h in
    (true, {| queue := q; head := h; tail := tail s |}).

(** [command_queue_pop]: [None] is the C [false] (nothing is stored through
    [p_value]); [Some v] is [true] with [*p_value = v]. *)
Definition command_queue_pop (s : state) : option A * state :=
  if command_queue_is_empty s
  then (None, s)
  else
    let v := queue s !!! Z.to_nat (tail s) in
    let t := u16 (tail s + 1) in
    let t := if COMMAND_QUEUE_SIZE <=? t then 0 else t in
    (Some v, {| queue := queue s; head := head s; tail := t |}).

(** A run of pushes: the flags returned, in order, and the final state. *)
Fixpoint push_all (vs : list A) (s : state) : list bool * state :=
  match vs with
  | [] => ([], s)
  | v :: vs' =>
      let '(b, s1) := command_queue_push v s in
      let '(bs, s2) := push_all vs' s1 in
      (b :: bs, s2)
  end.

(** A run of [n] pops: what each call returned, in order, and the final state. *)
Fixpoint pop_n (n : nat) (s : state) : list (option A) * state :=
  match n with
  | O => ([], s)
  | S n' =>
      let '(r, s1) := command_queue_pop s in
      let '(rs, s2) := pop_n n' s1 in
      (r :: rs, s2)
  end.

(** *** The queue read as a list *)

(** Cursors inside the array. *)
Definition wf (s : state) : Prop :=
  length (queue s) = Z.to_nat COMMAND_QUEUE_SIZE /\
  0 <= head s < COMMAND_QUEUE_SIZE /\
  0 <= tail s < COMMAND_QUEUE_SIZE.

(** Number of slots from [tail] (included) to [head] (excluded), going round. *)
Definition stored (s : state) : Z := (head s - tail s) mod COMMAND_QUEUE_SIZE.

(** [holds s l]: the slots from [tail] to [head] contain [l], oldest first. *)
Definition holds (s : state) (l : list A) : Prop :=
  wf s /\
  Z.of_nat (length l) = stored s /\
  forall (k : nat) (x : A),
    l !! k = Some x ->
    queue s !! Z.to_nat ((tail s + Z.of_nat k) mod COMMAND_QUEUE_SIZE) = Some x.

(** The loop of [command_queue_clear]: pop until a pop fails, passing each
    popped pointer to [free].  The list is the pointers freed, in order.
    [fuel] bounds the number of iterations; [None]: the loop has not ended
    within that many. *)
Fixpoint clear_loop (fuel : nat) (s : state) : option (list A * state) :=
  match fuel with
  | O => None
  | S fuel' =>
      match command_queue_pop s with
      | (Some p_command, s') =>
          match clear_loop fuel' s' with
          | Some (freed, s'') => Some (p_command :: freed, s'')
          | None => None
          end
      | (None, s') => Some ([], s')
      end
  end.

(** [command_queue_clear]: the value returned (always true), the pointers
    freed and the queue left. *)
Definition command_queue_clear (fuel : nat) (s : state) : option (bool * list A * state) :=
  match clear_loop fuel s with
  | Some (freed, s') => Some (true, freed, s')
  | None => None
  end.

(** The slots from [tail] to [head], oldest first. *)
Definition contents (s : state) : list A :=
  (fun k : nat => queue s !!! Z.to_nat ((tail s + Z.of_nat k) mod COMMAND_QUEUE_SIZE))
    <$> seq 0 (Z.to_nat (stored s)).

End Queue.

Arguments state : clear implicits.

End CommandQueue.

(** *** The queue of task pointers *)

(** [command_t*] values are addresses; the static array starts out as 128
    null pointers ([inhabitant] of [Z] is [0]). *)
Definition pointer : Type := Z.

(** 128 distinct heap addresses, as [malloc] could have returned them. *)
Definition pointers_128 : list pointer :=
  (fun k : nat => 536870912 + 48 * Z.of_nat k) <$> seq 0 128.

(* ===================================================================== *)
(** ** chessboard.c *)
(* ===================================================================== *)

Module Chessboard.

(** [chess_board_t]: the 64-bit presence mask and the 8x8 grid of piece
    characters, [board_pieces[rank][file]]. *)
Record chess_board_t : Type := mkBoard {
  board_presence : Z;
  board_pieces   : list (list Z)
}.

(** [board_changes_t], all fields [uint8_t]. *)
Record board_changes_t : Type := mkChanges {
  num_changes : Z;
  index1 : Z;
  index2 : Z;
  index3 : Z;
  index4 : Z
}.

(** [chessboard_init]: every field of the board is overwritten. *)
Definition chessboard_init (board : chess_board_t) : chess_board_t :=
  {| board_presence := u64 0xFFFF00000000FFFF;
     board_pieces :=
       [ [ch "R"; ch "N"; ch "B"; ch "Q"; ch "K"; ch "B"; ch "N"; ch "R"];
         replicate 8 (ch "P");
         replicate 8 0; replicate 8 0; replicate 8 0; replicate 8 0;
         replicate 8 (ch "p");
         [ch "r"; ch "n"; ch "b"; ch "q"; ch "k"; ch "b"; ch "n"; ch "r"] ] |}.

(** [chessboard_square_to_index]: two [switch] statements adding to a
    [uint8_t]; a character outside the cases adds nothing. *)
Definition chessboard_square_to_index (file rank : Z) : Z :=
  let index := 0 in
  let index :=
    if rank =? ch "1" then u8 (index + 0)
    else if rank =? ch "2" then u8 (index + 8)
    else if rank =? ch "3" then u8 (index + 16)
    else if rank =? ch "4" then u8 (index + 24)
    else if rank =? ch "5" then u8 (index + 32)
    else if rank =? ch "6" then u8 (index + 40)
    else if rank =? ch "7" then u8 (index + 48)
    else if rank =? ch "8" then u8 (index + 56)
    else index in
  let index :=
    if file =? ch "a" then u8 (index + 0)
    else if file =? ch "b" then u8 (index + 1)
    else if file =? ch "c" then u8 (index + 2)
    else if file =? ch "d" then u8 (index + 3)
    else if file =? ch "e" then u8 (index + 4)
    else if file =? ch "f" then u8 (index + 5)
    else if file =? ch "g" then u8 (index + 6)
    else if file =? ch "h" then u8 (index + 7)
    else index in
  index.

(** [chessboard_index_to_square]: the two characters written to
    [square[0]] (file) and [square[1]] (rank). *)
Definition chessboard_index_to_square (index : Z) : Z * Z :=
  if 63 <? index
  then (ch "?", ch "?")
  else
    let file := u8 (index mod 8 + ch "a") in
    let rank := u8 (index / 8 + ch "1") in
    (file, rank).

(** Modelled from the spec: [utils_get_board_changes] (utils.c) is not under
    src/.  Section 4.3, step 2: the set bit indices of the difference are
    collected (0 to 64 of them); here by ascending bit index, the first four
    in [index1] to [index4], every one counted in [num_changes]. *)
Definition record_change (bc : board_changes_t) (i : Z) : board_changes_t :=
  let n := num_changes bc in
  {| num_changes := u8 (n + 1);
     index1 := if n =? 0 then i else index1 bc;
     index2 := if n =? 1 then i else index2 bc;
     index3 := if n =? 2 then i else index3 bc;
     index4 := if n =? 3 then i else index4 bc |}.

Fixpoint scan_changes (bits : list nat) (changes : Z) (bc : board_changes_t)
  : board_changes_t :=
  match bits with
  | [] => bc
  | k :: ks =>
      scan_changes ks changes
        (if Z.testbit changes (Z.of_nat k) then record_change bc (Z.of_nat k) else bc)
  end.

Definition utils_get_board_changes (changes : Z) (bc : board_changes_t)
  : board_changes_t :=
  scan_changes (seq 0 64) changes bc.

(** The five stores [move[0] = ..; .. ; move[4] = ..]. *)
Definition store_move (a b c d e : Z) (move : list Z) : list Z :=
  <[4%nat := e]> (<[3%nat := d]> (<[2%nat := c]> (<[1%nat := b]> (<[0%nat := a]> move)))).

Section GetMove.

(** [CASTLE_WHITE_K], [CASTLE_WHITE_Q], [CASTLE_BLACK_K], [CASTLE_BLACK_Q] are
    defined in chessboard.h, which is not under src/. *)
Variables CASTLE_WHITE_K CASTLE_WHITE_Q CASTLE_BLACK_K CASTLE_BLACK_Q : Z.

(** [chessboard_get_move]: the returned flag and the [move] buffer after the
    call. *)
Definition chessboard_get_move (previous current : chess_board_t) (move : list Z)
  : bool * list Z :=
  let previous_presence := board_presence previous in
  let current_presence := board_presence current in
  let changes_in_presence := Z.lxor previous_presence current_presence in
  let board_changes :=
    {| num_changes := 0; index1 := 0xFF; index2 := 0xFF; index3 := 0xFF; index4 := 0xFF |} in
  let board_changes := utils_get_board_changes changes_in_presence board_changes in
  let num_changes := num_changes board_changes in
  if num_changes =? 2 then
    let index1 := index1 board_changes in
    let index2 := index2 board_changes in
    let '(square_initial, square_final) :=
      if negb (Z.land (Z.shiftr previous_presence index1) 0x01 =? 0)
      then (chessboard_index_to_square index1, chessboard_index_to_square index2)
      else (chessboard_index_to_square index2, chessboard_index_to_square index1) in
    (true, store_move (fst square_initial) (snd square_initial)
                      (fst square_final) (snd square_final) (ch "_") move)
  else if num_changes =? 4 then
    if changes_in_presence =? CASTLE_WHITE_K then
      (true, store_move (ch "e") (ch "1") (ch "g") (ch "1") (ch "_") move)
    else if changes_in_presence =? CASTLE_WHITE_Q then
      (true, store_move (ch "e") (ch "1") (ch "c") (ch "1") (ch "_") move)
    else if changes_in_presence =? CASTLE_BLACK_K then
      (true, store_move (ch "e") (ch "8") (ch "g") (ch "8") (ch "_") move)
    else if changes_in_presence =? CASTLE_BLACK_Q then
      (true, store_move (ch "e") (ch "8") (ch "c") (ch "8") (ch "_") move)
    else (false, move)
  else (false, move).

End GetMove.

(** Modelled from the spec: the values of the castling constants of
    chessboard.h, which is not under src/.  Section 8 gives the white
    king-side footprint as the squares e1, f1, g1, h1; the other three are
    the squares the king and the rook leave and reach (square index =
    rank * 8 + file). *)
Definition CASTLE_WHITE_K : Z := 0xF0.
Definition CASTLE_WHITE_Q : Z := 0x1D.
Definition CASTLE_BLACK_K : Z := Z.shiftl 0xF0 56.
Definition CASTLE_BLACK_Q : Z := Z.shiftl 0x1D 56.

(** *** Specification vocabulary *)

(** The squares on which two presence masks differ, by ascending index. *)
Definition differing (changes : Z) : list nat :=
  filter (fun k : nat => Is_true (Z.testbit changes (Z.of_nat k))) (seq 0 64).

(** A square as two characters, file then rank. *)
Definition square_chars (k : nat) : list Z :=
  let sq := chessboard_index_to_square (Z.of_nat k) in [fst sq; snd sq].

(** The name of square [k], spelled from the letters and digits of the
    board: the letter of file [k mod 8] and the digit of rank [k / 8]. *)
Definition file_letters : list Z :=
  [ch "a"; ch "b"; ch "c"; ch "d"; ch "e"; ch "f"; ch "g"; ch "h"].
Definition rank_digits : list Z :=
  [ch "1"; ch "2"; ch "3"; ch "4"; ch "5"; ch "6"; ch "7"; ch "8"].
Definition square_name (k : nat) : list Z :=
  [file_letters !!! (k mod 8)%nat; rank_digits !!! (k / 8)%nat].

(** The piece character of square [k] (rank [k / 8], file [k mod 8]); 0 when
    the grid has no such entry. *)
Definition piece_at (board : chess_board_t) (k : nat) : Z :=
  default 0 (row ← board_pieces board !! (k / 8)%nat; row !! (k mod 8)%nat).

(** File and rank characters. *)
Definition is_file (c : Z) : Prop := ch "a" <= c <= ch "h".
Definition is_rank (c : Z) : Prop := ch "1" <= c <= ch "8".

End Chessboard.

(* ===================================================================== *)
(** ** switch.c *)
(* ===================================================================== *)

Module Switch.

(** [switch_state_t]: the fields the interrupt handler writes, each a 16-bit
    mask with one bit per switch (the width [switch_shift_assign] returns). *)
Record switch_state_t : Type := mkSwitches {
  current_inputs  : Z;
  edges           : Z;
  pos_transitions : Z;
  neg_transitions : Z;
  previous_inputs : Z
}.

(** [static switch_state_t switches;] as the C start-up code leaves it. *)
Definition static_switches : switch_state_t := mkSwitches 0 0 0 0 0.

(** [SWITCH_HANDLER].  [image] is what [switch_shift_assign()] returned, the
    GPIO pins read and reordered; the hardware reads are the input of the
    handler. *)
Definition SWITCH_HANDLER (image : Z) (switches : switch_state_t) : switch_state_t :=
  let current := u16 image in
  let edges := u16 (Z.lxor current (previous_inputs switches)) in
  let pos := u16 (Z.land current edges) in
  let neg := u16 (Z.land (Z.lnot current) edges) in
  {| current_inputs := current;
     edges := edges;
     pos_transitions := pos;
     neg_transitions := neg;
     previous_inputs := current |}.

(** The handler run once per interrupt, oldest reading first. *)
Definition run (images : list Z) (switches : switch_state_t) : switch_state_t :=
  fold_left (fun s image => SWITCH_HANDLER image s) images switches.

(** A 16-bit reading. *)
Definition reading (image : Z) : Prop := 0 <= image < 65536.

End Switch.

(* ===================================================================== *)
(** ** raspberrypi.h, raspberrypi.c *)
(* ===================================================================== *)

Module RaspberryPi.

(** Start byte and acknowledgement. *)
Definition START_BYTE : Z := 0x0A.
Definition ACK_BYTE : Z := 0x0F.

(** Instruction identifiers. *)
Definition HUMAN_MOVE_INSTR : Z := 0x03.
Definition ROBOT_MOVE_INSTR : Z := 0x04.
Definition ILLEGAL_MOVE_INSTR : Z := 0x05.

(** Instruction and operand length bytes. *)
Definition HUMAN_MOVE_INSTR_AND_LEN : Z := 0x35.
Definition ROBOT_MOVE_INSTR_AND_LEN : Z := 0x46.
Definition ILLEGAL_MOVE_INSTR_AND_LEN : Z := 0x50.

(** Game status codes. *)
Definition GAME_ONGOING : Z := 0x01.
Definition GAME_CHECKMATE : Z := 0x02.
Definition GAME_STALEMATE : Z := 0x03.

(** Length in bytes of a complete human-move instruction. *)
Definition HUMAN_MOVE_INSTR_LENGTH : nat := 9.

(** [chess_move_type_t]: the cases of the [switch] in [gantry_robot_exit] (the
    [enum] itself is declared in a header that is not under src/). *)
Inductive chess_move_type_t : Type :=
  IDLE | MOVE | CAPTURE | CASTLING | EN_PASSENT | PROMOTION.

(** [chess_move_t]; files and ranks are the integer values of [chess_file_t]
    and [chess_rank_t]. *)
Record chess_move_t : Type := mkMove {
  source_file : Z;
  source_rank : Z;
  dest_file   : Z;
  dest_rank   : Z;
  move_type   : chess_move_type_t
}.

(** [game_status_t] *)
Inductive game_status_t : Type := ONGOING | HUMAN_WIN | ROBOT_WIN | STALEMATE.

(** Modelled from the spec: the UART driver (uart.c) is not under src/.
    Section 6: the link transport "exposes blocking-free send_byte /
    try_receive_byte primitives over a fixed logical channel".  The channel
    is the bytes that have arrived and were not read yet, oldest first, and
    the bytes put on the wire so far, oldest first. *)
Record uart : Type := mkUart {
  rx : list Z;
  tx : list Z
}.

Definition uart_out_byte (data : Z) (u : uart) : uart :=
  {| rx := rx u; tx := tx u ++ [u8 data] |}.

(** [size] bytes off the front of a list, when there are that many. *)
Fixpoint take_exact (size : nat) (l : list Z) : option (list Z * list Z) :=
  match size with
  | O => Some ([], l)
  | S size' =>
      match l with
      | [] => None
      | b :: l' =>
          match take_exact size' l' with
          | Some (bs, rest) => Some (b :: bs, rest)
          | None => None
          end
      end
  end.

(** Modelled from the spec: [rpi_receive(data, size)] as gantry.c calls it and
    raspberrypi.h declares it is not defined under src/ (raspberrypi.c has
    a one-byte [rpi_receive(data)]).  A try-receive: with [size] bytes
    waiting it stores them through [data] and returns true ([Some]); with
    fewer it returns false, reads nothing and leaves [data] alone ([None]). *)
Definition rpi_receive (size : nat) (u : uart) : option (list Z) * uart :=
  match take_exact size (rx u) with
  | Some (bs, rest) => (Some bs, {| rx := rest; tx := tx u |})
  | None => (None, u)
  end.

(** Modelled from the spec: [rpi_transmit_ack] is declared in raspberrypi.h
    and not defined under src/.  Section 6: the acknowledgement "is a single
    reserved byte (0x0F) with no frame wrapper". *)
Definition rpi_transmit_ack (u : uart) : uart := uart_out_byte ACK_BYTE u.

(** The loop [for (t = move; *t != 0; t++) uart_out_byte(.., *t)] over the
    memory that starts at [move].  [None]: the loop ran off the modelled
    memory without meeting a zero byte. *)
Fixpoint transmit_string (memory : list Z) (u : uart) : option uart :=
  match memory with
  | [] => None
  | c :: memory' =>
      if c =? 0 then Some u else transmit_string memory' (uart_out_byte c u)
  end.

(** [rpi_transmit_human_move]; [memory] is what lies at [move] and after. *)
Definition rpi_transmit_human_move (memory : list Z) (u : uart) : option uart :=
  let u := uart_out_byte START_BYTE u in
  let u := uart_out_byte HUMAN_MOVE_INSTR_AND_LEN u in
  transmit_string memory u.

(** Instruction and operand length bytes of the instructions without
    operand. *)
Definition RESET_INSTR_AND_LEN : Z := 0x00.
Definition START_W_INSTR_AND_LEN : Z := 0x10.
Definition START_B_INSTR_AND_LEN : Z := 0x20.

(** [rpi_transmit_reset] *)
Definition rpi_transmit_reset (u : uart) : uart :=
  let u := uart_out_byte START_BYTE u in
  uart_out_byte RESET_INSTR_AND_LEN u.

(** [rpi_transmit_start] *)
Definition rpi_transmit_start (color : Z) (u : uart) : uart :=
  if color =? ch "W" then
    let u := uart_out_byte START_BYTE u in
    uart_out_byte START_W_INSTR_AND_LEN u
  else if color =? ch "B" then
    let u := uart_out_byte START_BYTE u in
    uart_out_byte START_B_INSTR_AND_LEN u
  else u.

End RaspberryPi.

(* ===================================================================== *)
(** ** gantry.c *)
(* ===================================================================== *)

Module Gantry.

Import Chessboard RaspberryPi.

(** Which functions a gantry command points to: those of the human, comm,
    robot or home command. *)
Inductive gantry_functions : Type :=
  human_functions | comm_functions | robot_functions | home_functions.

(** [gantry_command_t] *)
Record gantry_command_t : Type := mkCommand {
  command        : gantry_functions;
  move           : chess_move_t;
  game_status    : game_status_t;
  robot_move_uci : list Z;
  move_to_send   : list Z
}.

(** What a [command_t*] of the queue points to: a gantry command, or a task
    of the motion layer recorded as the builder call that made it
    (Section 6 of the spec: [move_to], [move_home], [move_relative],
    [delay]); [null_command] is the null pointer. *)
Inductive command_t : Type :=
  | null_command
  | gantry_command (c : gantry_command_t)
  | stepper_chess_xy_command (file rank v_x v_y : Z)
  | stepper_home_z_command
  | stepper_home_xy_command
  | stepper_rel_command (x y z v_x v_y v_z : Z)
  | delay_command (ms : Z).

#[global] Instance command_t_inhabited : Inhabited command_t := populate null_command.

(** The human-sense task. *)
Definition is_human_command (c : command_t) : bool :=
  match c with
  | gantry_command g =>
      match command g with human_functions => true | _ => false end
  | _ => false
  end.

(** What gantry.c uses from files that are not under src/: constants of the
    headers, helpers of utils.c, the castling helper of raspberrypi.c and the
    board update of chessboard.c. *)
Record externals : Type := mkExternals {
  FILE_ERROR : Z;
  RANK_ERROR : Z;
  CAPTURE_FILE : Z;
  CAPTURE_RANK : Z;
  HOMING_DELAY_MS : Z;
  HOMING_X_BACKOFF : Z;
  HOMING_Y_BACKOFF : Z;
  HOMING_Z_BACKOFF : Z;
  HOMING_X_VELOCITY : Z;
  HOMING_Y_VELOCITY : Z;
  HOMING_Z_VELOCITY : Z;
  utils_byte_to_file : Z -> Z;
  utils_byte_to_rank : Z -> Z;
  utils_byte_to_move_type : Z -> chess_move_type_t;
  (** [utils_validate_transmission(data, count, check_bytes)]: the [count]
      bytes of [data], then the two check bytes. *)
  utils_validate_transmission : list Z -> list Z -> bool;
  rpi_castle_get_rook_move : chess_move_t -> chess_move_t;
  (** [chessboard_update_robot_move(uci)], on the previous board. *)
  chessboard_update_robot_move : list Z -> chess_board_t -> chess_board_t;
  (** A block as [malloc] returns it: the fields a builder does not set keep
      what it holds. *)
  malloc_block : gantry_command_t
}.

(** The variables of gantry.c and the modules it drives: its flags, the flag
    and timer of the comm time-out, the two boards, the UART channel of the
    Raspberry Pi and the command queue. *)
Record gantry_state : Type := mkGantry {
  robot_is_done      : bool;
  comm_is_done       : bool;
  msg_ready_to_send  : bool;
  comm_timer_running : bool;
  comm_timer_value   : Z;
  previous_board     : chess_board_t;
  current_board      : chess_board_t;
  rpi                : uart;
  commands           : CommandQueue.state command_t
}.

Definition set_rpi (u : uart) (g : gantry_state) : gantry_state :=
  mkGantry (robot_is_done g) (comm_is_done g) (msg_ready_to_send g)
    (comm_timer_running g) (comm_timer_value g) (previous_board g) (current_board g)
    u (commands g).

Definition set_robot_is_done (b : bool) (g : gantry_state) : gantry_state :=
  mkGantry b (comm_is_done g) (msg_ready_to_send g)
    (comm_timer_running g) (comm_timer_value g) (previous_board g) (current_board g)
    (rpi g) (commands g).

Definition set_comm_is_done (b : bool) (g : gantry_state) : gantry_state :=
  mkGantry (robot_is_done g) b (msg_ready_to_send g)
    (comm_timer_running g) (comm_timer_value g) (previous_board g) (current_board g)
    (rpi g) (commands g).

Definition set_msg_ready_to_send (b : bool) (g : gantry_state) : gantry_state :=
  mkGantry (robot_is_done g) (comm_is_done g) b
    (comm_timer_running g) (comm_timer_value g) (previous_board g) (current_board g)
    (rpi g) (commands g).

Definition set_previous_board (b : chess_board_t) (g : gantry_state) : gantry_state :=
  mkGantry (robot_is_done g) (comm_is_done g) (msg_ready_to_send g)
    (comm_timer_running g) (comm_timer_value g) b (current_board g)
    (rpi g) (commands g).

Definition set_commands (q : CommandQueue.state command_t) (g : gantry_state)
  : gantry_state :=
  mkGantry (robot_is_done g) (comm_is_done g) (msg_ready_to_send g)
    (comm_timer_running g) (comm_timer_value g) (previous_board g) (current_board g)
    (rpi g) q.

(** Modelled from the spec: the timer calls of clock.c, which is not under
    src/ (Section 4.4: "start a bounded timer", "stop the timer"). *)
Definition clock_start_timer (g : gantry_state) : gantry_state :=
  mkGantry (robot_is_done g) (comm_is_done g) (msg_ready_to_send g)
    true (comm_timer_value g) (previous_board g) (current_board g)
    (rpi g) (commands g).

Definition clock_stop_timer (g : gantry_state) : gantry_state :=
  mkGantry (robot_is_done g) (comm_is_done g) (msg_ready_to_send g)
    false (comm_timer_value g) (previous_board g) (current_board g)
    (rpi g) (commands g).

Definition clock_reset_timer_value (g : gantry_state) : gantry_state :=
  mkGantry (robot_is_done g) (comm_is_done g) (msg_ready_to_send g)
    (comm_timer_running g) 0 (previous_board g) (current_board g)
    (rpi g) (commands g).

(** Modelled from the spec: [utils_copy_array(from, to)] of utils.c, which is
    not under src/.  Section 4.5: on a validated RobotMove the task "commits
    previous := current"; the grid of the first board is copied over the
    grid of the second. *)
Definition utils_copy_array (from to : list (list Z)) : list (list Z) := from.

Definition set_move_type (t : chess_move_type_t) (c : gantry_command_t) : gantry_command_t :=
  mkCommand (command c)
    (mkMove (source_file (move c)) (source_rank (move c))
            (dest_file (move c)) (dest_rank (move c)) t)
    (game_status c) (robot_move_uci c) (move_to_send c).

Definition set_move (m : chess_move_t) (c : gantry_command_t) : gantry_command_t :=
  mkCommand (command c) m (game_status c) (robot_move_uci c) (move_to_send c).

Definition set_game_status (s : game_status_t) (c : gantry_command_t) : gantry_command_t :=
  mkCommand (command c) (move c) s (robot_move_uci c) (move_to_send c).

Definition set_robot_move_uci (uci : list Z) (c : gantry_command_t) : gantry_command_t :=
  mkCommand (command c) (move c) (game_status c) uci (move_to_send c).

Section Commands.

Variable ext : externals.

(** The move with every field "absent". *)
Definition no_move : chess_move_t :=
  mkMove (FILE_ERROR ext) (RANK_ERROR ext) (FILE_ERROR ext) (RANK_ERROR ext) IDLE.

(** [gantry_human_build_command] *)
Definition gantry_human_build_command : gantry_command_t :=
  {| command := human_functions;
     move := no_move;
     game_status := ONGOING;
     robot_move_uci := robot_move_uci (malloc_block ext);
     move_to_send := Chessboard.store_move (ch "?") (ch "?") (ch "?") (ch "?") (ch "?")
                       (move_to_send (malloc_block ext)) |}.

(** [gantry_comm_build_command] *)
Definition gantry_comm_build_command (uci : list Z) : gantry_command_t :=
  {| command := comm_functions;
     move := no_move;
     game_status := ONGOING;
     robot_move_uci := robot_move_uci (malloc_block ext);
     move_to_send := Chessboard.store_move (uci !!! 0%nat) (uci !!! 1%nat) (uci !!! 2%nat)
                       (uci !!! 3%nat) (uci !!! 4%nat)
                       (move_to_send (malloc_block ext)) |}.

(** [gantry_robot_build_command] *)
Definition gantry_robot_build_command : gantry_command_t :=
  {| command := robot_functions;
     move := no_move;
     game_status := ONGOING;
     robot_move_uci := Chessboard.store_move (ch "?") (ch "?") (ch "?") (ch "?") (ch "?")
                         (robot_move_uci (malloc_block ext));
     move_to_send := Chessboard.store_move (ch "?") (ch "?") (ch "?") (ch "?") (ch "?")
                       (move_to_send (malloc_block ext)) |}.

(** [gantry_home_build_command] *)
Definition gantry_home_build_command : gantry_command_t :=
  {| command := home_functions;
     move := no_move;
     game_status := game_status (malloc_block ext);
     robot_move_uci := robot_move_uci (malloc_block ext);
     move_to_send := move_to_send (malloc_block ext) |}.

(** [gantry_comm_action].  [after] is the memory that follows the array
    [move_to_send] of the command, which the transmit loop reads when the
    five characters hold no zero byte.  [None]: that loop ran off the
    modelled memory. *)
Definition gantry_comm_action (c : gantry_command_t) (after : list Z) (g : gantry_state)
  : option gantry_state :=
  if msg_ready_to_send g then
    match rpi_transmit_human_move (move_to_send c ++ after) (rpi g) with
    | Some u =>
        let g := set_rpi u g in
        let g := set_msg_ready_to_send false g in
        Some (clock_start_timer g)
    | None => None
    end
  else
    match rpi_receive 1 (rpi g) with
    | (Some ack, u) =>
        let g := set_rpi u g in
        if ack !!! 0%nat =? ACK_BYTE then
          let g := set_comm_is_done true g in
          let g := clock_stop_timer g in
          Some (clock_reset_timer_value g)
        else Some g
    | (None, u) => Some (set_rpi u g)
    end.

(** [gantry_comm_is_done] *)
Definition gantry_comm_is_done (g : gantry_state) : bool := comm_is_done g.

(** [gantry_robot_entry] *)
Definition gantry_robot_entry (c : gantry_command_t) (g : gantry_state)
  : gantry_command_t * gantry_state :=
  (set_move no_move c, set_robot_is_done false g).

(** The five assignments from [move[0]] to [move[4]]. *)
Definition decoded_move (uci : list Z) : chess_move_t :=
  {| source_file := utils_byte_to_file ext (uci !!! 0%nat);
     source_rank := utils_byte_to_rank ext (uci !!! 1%nat);
     dest_file := utils_byte_to_file ext (uci !!! 2%nat);
     dest_rank := utils_byte_to_rank ext (uci !!! 3%nat);
     move_type := utils_byte_to_move_type ext (uci !!! 4%nat) |}.

(** The part of [gantry_robot_action] that runs once a robot-move frame has
    passed validation (after the acknowledgement). *)
Definition accept_robot_move (uci : list Z) (status : Z)
  (c : gantry_command_t) (g : gantry_state) : gantry_command_t * gantry_state :=
  let g := set_previous_board
             {| board_presence := board_presence (current_board g);
                board_pieces := board_pieces (previous_board g) |} g in
  let g := set_previous_board
             {| board_presence := board_presence (previous_board g);
                board_pieces := utils_copy_array (board_pieces (current_board g))
                                  (board_pieces (previous_board g)) |} g in
  let status_after_human := u8 (Z.shiftr status 4) in
  let status_after_robot := u8 (Z.land status (Z.lnot 0xF0)) in
  let c := set_robot_move_uci
             (Chessboard.store_move (uci !!! 0%nat) (uci !!! 1%nat) (uci !!! 2%nat)
                (uci !!! 3%nat) (uci !!! 4%nat) (robot_move_uci c)) c in
  let c :=
    if status_after_human =? GAME_CHECKMATE then
      set_move_type IDLE (set_game_status HUMAN_WIN c)
    else if status_after_robot =? GAME_CHECKMATE then
      set_move (decoded_move uci) (set_game_status ROBOT_WIN c)
    else if status_after_human =? GAME_STALEMATE then
      set_move_type IDLE (set_game_status STALEMATE c)
    else if status_after_robot =? GAME_STALEMATE then
      set_move (decoded_move uci) (set_game_status STALEMATE c)
    else
      set_move (decoded_move uci) (set_game_status ONGOING c) in
  (c, set_robot_is_done true g).

(** [gantry_robot_action], the build for the Raspberry Pi link
    ([FINAL_IMPLEMENTATION_MODE] or [THREE_PARTY_MODE]).  Received bytes are
    [char] values read as 0..255.  [check_bytes] is what the local array of
    that name holds before the call that fills it, whose result is not
    tested. *)
Definition gantry_robot_action (c : gantry_command_t) (check_bytes : list Z)
  (g : gantry_state) : gantry_command_t * gantry_state :=
  match rpi_receive 1 (rpi g) with
  | (None, u) => (c, set_rpi u g)
  | (Some first, u) =>
    let first_byte := first !!! 0%nat in
    if negb (first_byte =? START_BYTE) then (c, set_rpi u g) else
    match rpi_receive 1 u with
    | (None, u) => (c, set_rpi u g)
    | (Some second, u) =>
      let instr_op_len := second !!! 0%nat in
      let instr := u8 (Z.shiftr instr_op_len 4) in
      if instr =? ROBOT_MOVE_INSTR then
        match rpi_receive 5 u with
        | (None, u) => (c, set_rpi u g)
        | (Some uci, u) =>
          match rpi_receive 1 u with
          | (None, u) => (c, set_rpi u g)
          | (Some status, u) =>
            let game_status := status !!! 0%nat in
            let message := [first_byte; instr_op_len] ++ uci ++ [game_status] in
            let '(received, u) := rpi_receive 2 u in
            let check_bytes := default check_bytes received in
            if utils_validate_transmission ext message check_bytes then
              let u := rpi_transmit_ack u in
              accept_robot_move uci game_status c (set_rpi u g)
            else (c, set_rpi u g)
          end
        end
      else if instr =? ILLEGAL_MOVE_INSTR then
        let message := [first_byte; instr_op_len] in
        let '(received, u) := rpi_receive 2 u in
        let check_bytes := default check_bytes received in
        if utils_validate_transmission ext message check_bytes then
          let u := rpi_transmit_ack u in
          (set_move_type IDLE c, set_robot_is_done true (set_rpi u g))
        else (c, set_rpi u g)
      else (c, set_rpi u g)
    end
  end.

(** [gantry_robot_is_done] *)
Definition gantry_robot_is_done (g : gantry_state) : bool := robot_is_done g.

(** [gantry_home]: the commands it pushes, in order. *)
Definition gantry_home : list command_t :=
  [ gantry_command gantry_home_build_command;
    stepper_home_z_command;
    stepper_home_xy_command;
    delay_command (HOMING_DELAY_MS ext);
    stepper_rel_command (HOMING_X_BACKOFF ext) (HOMING_Y_BACKOFF ext) (HOMING_Z_BACKOFF ext)
      (HOMING_X_VELOCITY ext) (HOMING_Y_VELOCITY ext) (HOMING_Z_VELOCITY ext);
    gantry_command gantry_home_build_command ].

(** The error check at the head of every case of the [switch]. *)
Definition source_missing (m : chess_move_t) : bool :=
  (source_file m =? FILE_ERROR ext) || (source_rank m =? RANK_ERROR ext).

(** The [switch] of [gantry_robot_exit]: the commands it pushes, in order. *)
Definition compile_move (m : chess_move_t) : list command_t :=
  match move_type m with
  | MOVE =>
      if source_missing m then [] else
      [ stepper_chess_xy_command (source_file m) (source_rank m) 1 1;
        delay_command 1000;
        stepper_chess_xy_command (dest_file m) (dest_rank m) 1 1;
        delay_command 1000 ] ++ gantry_home
  | PROMOTION =>
      if source_missing m then [] else
      [ stepper_chess_xy_command (source_file m) (source_rank m) 1 1;
        delay_command 1000;
        stepper_chess_xy_command (CAPTURE_FILE ext) (CAPTURE_RANK ext) 1 1;
        delay_command 1000;
        stepper_chess_xy_command (CAPTURE_FILE ext) (CAPTURE_RANK ext) 1 1;
        delay_command 1000;
        stepper_chess_xy_command (dest_file m) (dest_rank m) 1 1;
        delay_command 1000 ] ++ gantry_home
  | CAPTURE =>
      if source_missing m then [] else
      [ stepper_chess_xy_command (dest_file m) (dest_rank m) 1 1;
        delay_command 1000;
        stepper_chess_xy_command (CAPTURE_FILE ext) (CAPTURE_RANK ext) 1 1;
        delay_command 1000;
        stepper_chess_xy_command (source_file m) (source_rank m) 1 1;
        delay_command 1000;
        stepper_chess_xy_command (dest_file m) (dest_rank m) 1 1;
        delay_command 1000 ] ++ gantry_home
  | CASTLING =>
      if source_missing m then [] else
      let rook_move := rpi_castle_get_rook_move ext m in
      [ stepper_chess_xy_command (source_file m) (source_rank m) 1 1;
        delay_command 1000;
        stepper_chess_xy_command (dest_file m) (dest_rank m) 1 1;
        delay_command 1000;
        stepper_chess_xy_command (source_file rook_move) (source_rank rook_move) 1 1;
        delay_command 1000;
        stepper_chess_xy_command (dest_file rook_move) (dest_rank rook_move) 1 1;
        delay_command 1000 ] ++ gantry_home
  | EN_PASSENT =>
      if source_missing m then [] else
      [ stepper_chess_xy_command (dest_file m) (source_rank m) 1 1;
        delay_command 1000;
        stepper_chess_xy_command (CAPTURE_FILE ext) (CAPTURE_RANK ext) 1 1;
        delay_command 1000;
        stepper_chess_xy_command (source_file m) (source_rank m) 1 1;
        delay_command 1000;
        stepper_chess_xy_command (dest_file m) (dest_rank m) 1 1 ] ++ gantry_home
  | IDLE => []
  end.

(** Every command [gantry_robot_exit] passes to [command_queue_push], in
    order: the compiled move, then the next human command while the game is
    on. *)
Definition gantry_robot_exit_pushes (c : gantry_command_t) : list command_t :=
  compile_move (move c) ++
  match game_status c with
  | ONGOING => [gantry_command gantry_human_build_command]
  | _ => []
  end.

(** [gantry_robot_exit]: the pushes (their results are not tested), then
    the update of the previous board with the robot's move. *)
Definition gantry_robot_exit (c : gantry_command_t) (g : gantry_state) : gantry_state :=
  let q := snd (CommandQueue.push_all (gantry_robot_exit_pushes c) (commands g)) in
  let g := set_commands q g in
  set_previous_board
    (chessboard_update_robot_move ext (robot_move_uci c) (previous_board g)) g.

(** [gantry_comm_exit] *)
Definition gantry_comm_exit (c : gantry_command_t) (g : gantry_state) : gantry_state :=
  let q := snd (CommandQueue.command_queue_push
                  (gantry_command gantry_robot_build_command) (commands g)) in
  set_comm_is_done false (set_commands q g).

(** [CASTLE_WHITE_K], [CASTLE_WHITE_Q], [CASTLE_BLACK_K], [CASTLE_BLACK_Q] of
    chessboard.h, which [chessboard_get_move] compares with. *)
Variables CASTLE_WHITE_K CASTLE_WHITE_Q CASTLE_BLACK_K CASTLE_BLACK_Q : Z.

(** [gantry_human_action], the build [FINAL_IMPLEMENTATION_MODE].
    [board_reading] is what [sensor_get_reading()] returned.  The third
    component is the flag [msp_illegal_move] as the call leaves it. *)
Definition gantry_human_action (c : gantry_command_t) (board_reading : Z)
  (g : gantry_state) : gantry_command_t * gantry_state * bool :=
  let current :=
    {| board_presence := u64 board_reading;
       board_pieces := board_pieces (current_board g) |} in
  let g := mkGantry (robot_is_done g) (comm_is_done g) (msg_ready_to_send g)
             (comm_timer_running g) (comm_timer_value g) (previous_board g) current
             (rpi g) (commands g) in
  let '(legal, buffer) :=
    chessboard_get_move CASTLE_WHITE_K CASTLE_WHITE_Q CASTLE_BLACK_K CASTLE_BLACK_Q
      (previous_board g) (current_board g) (move_to_send c) in
  let c := mkCommand (command c) (move c) (game_status c) (robot_move_uci c) buffer in
  if negb legal then (c, g, true) else (c, g, false).

(** [gantry_human_exit], the build [FINAL_IMPLEMENTATION_MODE];
    [msp_illegal_move] is the flag as the action left it. *)
Definition gantry_human_exit (c : gantry_command_t) (msp_illegal_move : bool)
  (g : gantry_state) : gantry_state :=
  if msp_illegal_move then
    let q := snd (CommandQueue.command_queue_push
                    (gantry_command gantry_human_build_command) (commands g)) in
    set_commands q g
  else
    let q := snd (CommandQueue.command_queue_push
                    (gantry_command (gantry_comm_build_command (move_to_send c)))
                    (commands g)) in
    set_msg_ready_to_send true (set_commands q g).


End Commands.

End Gantry.

(* ===================================================================== *)
(** ** Vocabulary of the statements *)
(* ===================================================================== *)

Section Vocabulary.

Import RaspberryPi Gantry.

(** The characters of a C string: the bytes before the first zero byte. *)
Fixpoint c_string (memory : list Z) : list Z :=
  match memory with
  | [] => []
  | c :: memory' => if c =? 0 then [] else c :: c_string memory'
  end.

(** [n] calls of the action in a row, nothing else touching the state. *)
Fixpoint comm_actions (n : nat) (c : gantry_command_t) (after : list Z) (g : gantry_state)
  : option gantry_state :=
  match n with
  | O => Some g
  | S n' =>
      match gantry_comm_action c after g with
      | Some g' => comm_actions n' c after g'
      | None => None
      end
  end.

(** The instruction identifier the action reads off the second byte. *)
Definition instruction (instr_op_len : Z) : Z := u8 (Z.shiftr instr_op_len 4).

(** What waits on the link does not begin with the bytes of a robot-move or
    illegal-move instruction. *)
Inductive no_frame : list Z -> Prop :=
  | nothing_waiting : no_frame []
  | not_a_start (b : Z) (rest : list Z) :
      b <> START_BYTE -> no_frame (b :: rest)
  | start_only : no_frame [START_BYTE]
  | other_instruction (instr_op_len : Z) (rest : list Z) :
      instruction instr_op_len <> ROBOT_MOVE_INSTR ->
      instruction instr_op_len <> ILLEGAL_MOVE_INSTR ->
      no_frame (START_BYTE :: instr_op_len :: rest)
  | robot_move_cut_short (instr_op_len : Z) (body : list Z) :
      instruction instr_op_len = ROBOT_MOVE_INSTR ->
      (length body < 6)%nat ->
      no_frame (START_BYTE :: instr_op_len :: body).

(** The array [check_bytes] when the validator reads it: the two bytes
    received when two were waiting, and what the array held before when
    fewer were (the result of that receive is not tested). *)
Definition check_buffer (check_bytes waiting : list Z) : list Z :=
  match waiting with
  | c0 :: c1 :: _ => [c0; c1]
  | _ => check_bytes
  end.

(** The validator accepts what waits on the link: the eight bytes of a
    robot-move frame, or the two bytes of an illegal-move frame, against the
    check buffer. *)
Inductive frame_accepted (ext : externals) (check_bytes : list Z) : list Z -> Prop :=
  | robot_frame_accepted (il m0 m1 m2 m3 m4 status : Z) (after : list Z) :
      instruction il = ROBOT_MOVE_INSTR ->
      utils_validate_transmission ext [START_BYTE; il; m0; m1; m2; m3; m4; status]
        (check_buffer check_bytes after) = true ->
      frame_accepted ext check_bytes
        (START_BYTE :: il :: m0 :: m1 :: m2 :: m3 :: m4 :: status :: after)
  | illegal_frame_accepted (il : Z) (after : list Z) :
      instruction il = ILLEGAL_MOVE_INSTR ->
      utils_validate_transmission ext [START_BYTE; il] (check_buffer check_bytes after)
        = true ->
      frame_accepted ext check_bytes (START_BYTE :: il :: after).

End Vocabulary.

(** *** A concrete build, for the examples *)

(** Values for what gantry.c takes from files that are not under src/.  The
    validator is an instance for the examples (two running sums modulo 255,
    as the name [utils_fl16_data_to_cbytes] in gantry.c suggests); the
    theorems hold for every validator. *)
Fixpoint running_sums (data : list Z) (sum1 sum2 : Z) : Z * Z :=
  match data with
  | [] => (sum1, sum2)
  | b :: data' =>
      let sum1 := (sum1 + b) mod 255 in
      running_sums data' sum1 ((sum2 + sum1) mod 255)
  end.

Definition example_validate (data check_bytes : list Z) : bool :=
  let sums := running_sums data 0 0 in
  match check_bytes with
  | [c0; c1] => (c0 =? fst sums) && (c1 =? snd sums)
  | _ => false
  end.

Definition example_move_type (b : Z) : RaspberryPi.chess_move_type_t :=
  if b =? ch "_" then RaspberryPi.MOVE
  else if b =? ch "C" then RaspberryPi.CAPTURE
  else if b =? ch "c" then RaspberryPi.CASTLING
  else if b =? ch "E" then RaspberryPi.EN_PASSENT
  else if b =? ch "Q" then RaspberryPi.PROMOTION
  else RaspberryPi.IDLE.

Definition example_block : Gantry.gantry_command_t :=
  Gantry.mkCommand Gantry.home_functions (RaspberryPi.mkMove 0 0 0 0 RaspberryPi.IDLE)
    RaspberryPi.ONGOING [0; 0; 0; 0; 0] [0; 0; 0; 0; 0].

Definition example_externals : Gantry.externals :=
  {| Gantry.FILE_ERROR := -1;
     Gantry.RANK_ERROR := -1;
     Gantry.CAPTURE_FILE := 9;
     Gantry.CAPTURE_RANK := 4;
     Gantry.HOMING_DELAY_MS := 100;
     Gantry.HOMING_X_BACKOFF := -7;
     Gantry.HOMING_Y_BACKOFF := 7;
     Gantry.HOMING_Z_BACKOFF := 0;
     Gantry.HOMING_X_VELOCITY := 1;
     Gantry.HOMING_Y_VELOCITY := 1;
     Gantry.HOMING_Z_VELOCITY := 0;
     Gantry.utils_byte_to_file := fun b => b - ch "a";
     Gantry.utils_byte_to_rank := fun b => b - ch "1";
     Gantry.utils_byte_to_move_type := example_move_type;
     Gantry.utils_validate_transmission := example_validate;
     Gantry.rpi_castle_get_rook_move := fun m => m;
     Gantry.chessboard_update_robot_move := fun _ b => b;
     Gantry.malloc_block := example_block |}.

(** A state at the start of a game: both boards in the starting position,
    the queue empty, the given bytes waiting on the link and nothing sent. *)
Definition example_state (ready : bool) (waiting : list Z) : Gantry.gantry_state :=
  {| Gantry.robot_is_done := false;
     Gantry.comm_is_done := false;
     Gantry.msg_ready_to_send := ready;
     Gantry.comm_timer_running := false;
     Gantry.comm_timer_value := 0;
     Gantry.previous_board := Chessboard.chessboard_init (Chessboard.mkBoard 0 []);
     Gantry.current_board := Chessboard.chessboard_init (Chessboard.mkBoard 0 []);
     Gantry.rpi := RaspberryPi.mkUart waiting [];
     Gantry.commands := CommandQueue.boot |}.

(** The human has played e2e4: the current board has e2 empty and e4
    occupied. *)
Definition example_state_e2e4 (waiting : list Z) : Gantry.gantry_state :=
  Gantry.mkGantry false false false false 0
    (Chessboard.chessboard_init (Chessboard.mkBoard 0 []))
    (Chessboard.mkBoard 0xFFFF00001000EFFF
       (Chessboard.board_pieces (Chessboard.chessboard_init (Chessboard.mkBoard 0 []))))
    (RaspberryPi.mkUart waiting []) CommandQueue.boot.

(* ===================================================================== *)
(** ** The command queue: lemmas *)
(* ===================================================================== *)

Section QueueFacts.

Import CommandQueue.

Context {A : Type} `{Inhabited A}.

(** *** Lemmas on single calls *)

Lemma boot_holds : holds (boot (A := A)) [].
Proof.
  unfold holds, wf, stored, boot, command_queue_init, static_queue.
  cbn [queue head tail]. rewrite length_replicate.
  repeat split; try (unfold COMMAND_QUEUE_SIZE; cbn [length]; lia).
  intros k x Hk. rewrite lookup_nil in Hk. discriminate.
Qed.

Lemma get_size_stored (s : state A) :
  wf s -> stored s < COMMAND_QUEUE_SIZE - 1 ->
  command_queue_get_size s <> COMMAND_QUEUE_SIZE.
Proof.
  unfold wf, stored, command_queue_get_size, u16, COMMAND_QUEUE_SIZE.
  intros (_ & Hh & Ht) Hst.
  destruct (tail s <=? head s) eqn:E.
  - apply Z.leb_le in E. rewrite Z.mod_small by lia. lia.
  - apply Z.leb_gt in E.
    assert ((head s - tail s) mod 128 = head s - tail s + 128) as Hm.
    { symmetry. apply (Z.mod_unique_pos _ _ (-1)); lia. }
    rewrite Hm in Hst. rewrite Z.mod_small by lia. lia.
Qed.

Lemma wrap_succ (c : Z) :
  0 <= c < COMMAND_QUEUE_SIZE ->
  (if COMMAND_QUEUE_SIZE <=? u16 (c + 1) then 0 else u16 (c + 1))
  = (c + 1) mod COMMAND_QUEUE_SIZE.
Proof.
  unfold u16, COMMAND_QUEUE_SIZE; intros Hc.
  rewrite (Z.mod_small (c + 1) 65536) by lia.
  destruct (128 <=? c + 1) eqn:E.
  - apply Z.leb_le in E. assert (c = 127) as -> by lia. reflexivity.
  - apply Z.leb_gt in E. rewrite Z.mod_small by lia. reflexivity.
Qed.

Lemma push_holds (v : A) (s : state A) (l : list A) :
  holds s l -> Z.of_nat (length l) < COMMAND_QUEUE_SIZE - 1 ->
  exists s', command_queue_push v s = (true, s') /\ holds s' (l ++ [v]).
Proof.
  intros (Hwf & Hlen & Hget) Hroom.
  pose proof Hwf as (Hq & Hh & Ht).
  unfold command_queue_push.
  destruct (command_queue_get_size s =? COMMAND_QUEUE_SIZE) eqn:E.
  { apply Z.eqb_eq in E. exfalso. revert E. apply get_size_stored; [done | lia]. }
  cbv zeta. rewrite (wrap_succ (head s) Hh).
  eexists; split; [reflexivity |].
  unfold holds, wf, stored in *; simpl; unfold COMMAND_QUEUE_SIZE in *.
  rewrite length_insert, length_app; simpl.
  assert (((head s + 1) mod 128 - tail s) mod 128 = (head s - tail s) mod 128 + 1) as Hst.
  { rewrite Zminus_mod_idemp_l.
    replace (head s + 1 - tail s) with ((head s - tail s) + 1) by lia.
    rewrite <- Zplus_mod_idemp_l. apply Z.mod_small. lia. }
  repeat split; try lia; try (apply Z.mod_pos_bound; lia).
  intros k x Hk.
  destruct (decide (k < length l)%nat) as [Hlt | Hge].
  - rewrite lookup_app_l in Hk by done.
    rewrite list_lookup_insert_ne; [by apply Hget |].
    intros Heq. apply Z2Nat.inj in Heq; try lia; [| apply Z.mod_pos_bound; lia].
    apply lookup_lt_Some in Hk.
    assert (Z.of_nat k = Z.of_nat (length l)); [| lia].
    rewrite Hlen, Heq, Zminus_mod_idemp_l.
    replace (tail s + Z.of_nat k - tail s) with (Z.of_nat k) by lia.
    rewrite Z.mod_small by lia. reflexivity.
  - rewrite lookup_app_r in Hk by lia.
    destruct (k - length l)%nat as [| n] eqn:Ek; simpl in Hk; [| by rewrite lookup_nil in Hk].
    injection Hk as <-.
    assert (k = length l) as -> by lia.
    rewrite Hlen, Zplus_mod_idemp_r.
    replace (tail s + (head s - tail s)) with (head s) by lia.
    rewrite Z.mod_small by lia.
    apply list_lookup_insert_eq. lia.
Qed.

Lemma pop_holds (s : state A) (x : A) (l : list A) :
  holds s (x :: l) ->
  exists s', command_queue_pop s = (Some x, s') /\ holds s' l.
Proof.
  intros (Hwf & Hlen & Hget).
  pose proof Hwf as (Hq & Hh & Ht).
  unfold command_queue_pop, command_queue_is_empty.
  unfold stored in Hlen; simpl in Hlen.
  destruct (head s =? tail s) eqn:E.
  { apply Z.eqb_eq in E. rewrite E, Z.sub_diag in Hlen. simpl in Hlen.
    unfold COMMAND_QUEUE_SIZE in Hlen. rewrite Z.mod_0_l in Hlen by lia. lia. }
  cbv zeta. rewrite (wrap_succ (tail s) Ht).
  assert (queue s !!! Z.to_nat (tail s) = x) as ->.
  { apply list_lookup_total_correct.
    specialize (Hget 0%nat x eq_refl).
    unfold COMMAND_QUEUE_SIZE in *.
    rewrite Z.add_0_r, Z.mod_small in Hget by lia. exact Hget. }
  eexists; split; [reflexivity |].
  unfold holds, wf, stored in *; simpl; unfold COMMAND_QUEUE_SIZE in *.
  assert ((head s - (tail s + 1) mod 128) mod 128 = (head s - tail s) mod 128 - 1) as Hst.
  { rewrite Zminus_mod_idemp_r.
    replace (head s - (tail s + 1)) with ((head s - tail s) + (-1)) by lia.
    rewrite <- Zplus_mod_idemp_l. apply Z.mod_small.
    pose proof (Z.mod_pos_bound (head s - tail s) 128). lia. }
  repeat split; try lia; try (apply Z.mod_pos_bound; lia).
  intros k y Hk.
  specialize (Hget (S k) y Hk).
  rewrite Zplus_mod_idemp_l.
  replace (tail s + 1 + Z.of_nat k) with (tail s + Z.of_nat (S k)) by lia.
  exact Hget.
Qed.

Lemma empty_holds (s : state A) :
  holds s [] ->
  command_queue_is_empty s = true /\ command_queue_get_size s = 0
  /\ command_queue_pop s = (None, s).
Proof.
  intros ((Hq & Hh & Ht) & Hlen & _).
  unfold stored, COMMAND_QUEUE_SIZE in *; simpl in Hlen.
  assert (head s = tail s) as Heq.
  { destruct (Z.lt_trichotomy (head s) (tail s)) as [Hlt | [He | Hgt]]; [| done |].
    - assert ((head s - tail s) mod 128 = head s - tail s + 128) as Hm
        by (symmetry; apply (Z.mod_unique_pos _ _ (-1)); lia).
      lia.
    - rewrite Z.mod_small in Hlen by lia. lia. }
  unfold command_queue_pop, command_queue_is_empty, command_queue_get_size, u16.
  rewrite Heq, Z.eqb_refl, Z.leb_refl, Z.sub_diag. done.
Qed.

Lemma push_full (v : A) (s : state A) :
  command_queue_get_size s = COMMAND_QUEUE_SIZE ->
  command_queue_push v s = (false, s).
Proof.
  intros Hfull. unfold command_queue_push. rewrite Hfull, Z.eqb_refl. reflexivity.
Qed.

Lemma push_tail (v : A) (s : state A) :
  tail (snd (command_queue_push v s)) = tail s.
Proof.
  unfold command_queue_push.
  destruct (command_queue_get_size s =? COMMAND_QUEUE_SIZE); reflexivity.
Qed.

(** *** Runs of calls *)

Lemma push_all_app (vs ws : list A) (s : state A) :
  push_all (vs ++ ws) s =
  (fst (push_all vs s) ++ fst (push_all ws (snd (push_all vs s))),
   snd (push_all ws (snd (push_all vs s)))).
Proof.
  revert s. induction vs as [| v vs IH]; intros s; simpl.
  - by destruct (push_all ws s).
  - destruct (command_queue_push v s) as [b s1].
    rewrite IH. destruct (push_all vs s1) as [bs s2]; simpl.
    reflexivity.
Qed.

Lemma push_all_tail (vs : list A) (s : state A) :
  tail (snd (push_all vs s)) = tail s.
Proof.
  revert s. induction vs as [| v vs IH]; intros s; simpl; [done |].
  pose proof (push_tail v s) as Ht.
  destruct (command_queue_push v s) as [b s1]; simpl in Ht.
  specialize (IH s1). destruct (push_all vs s1) as [bs s2]; simpl in *.
  congruence.
Qed.

Lemma push_all_holds (vs : list A) : forall (s : state A) (l : list A),
  holds s l ->
  Z.of_nat (length l + length vs) <= COMMAND_QUEUE_SIZE - 1 ->
  exists s', push_all vs s = (replicate (length vs) true, s') /\ holds s' (l ++ vs).
Proof.
  induction vs as [| v vs IH]; intros s l Hs Hroom; simpl.
  - exists s. rewrite app_nil_r. done.
  - simpl in Hroom.
    destruct (push_holds v s l Hs) as (s1 & Hp & Hs1); [lia |].
    rewrite Hp.
    destruct (IH s1 (l ++ [v]) Hs1) as (s2 & Hq & Hs2).
    { rewrite length_app; simpl. lia. }
    rewrite Hq. exists s2. split; [done |].
    by rewrite <- app_assoc in Hs2.
Qed.

Lemma pop_n_holds (l : list A) : forall (s : state A),
  holds s l ->
  exists s', pop_n (length l) s = (Some <$> l, s') /\ holds s' [].
Proof.
  induction l as [| x l IH]; intros s Hs; simpl.
  - by exists s.
  - destruct (pop_holds s x l Hs) as (s1 & Hp & Hs1). rewrite Hp.
    destruct (IH s1 Hs1) as (s2 & Hq & Hs2). rewrite Hq.
    by exists s2.
Qed.

(** The FIFO law as far as the code keeps it: up to 127 pushes on the
    initialized queue all succeed, the same number of pops gives the pushed
    values back in push order, and the queue is empty again. *)
Lemma fifo_law_127 (vs : list A) :
  Z.of_nat (length vs) <= COMMAND_QUEUE_SIZE - 1 ->
  exists s1 s2,
    push_all vs boot = (replicate (length vs) true, s1) /\
    command_queue_get_size s1 = Z.of_nat (length vs) /\
    pop_n (length vs) s1 = (Some <$> vs, s2) /\
    command_queue_pop s2 = (None, s2) /\
    command_queue_get_size s2 = 0.
Proof.
  intros Hn.
  destruct (push_all_holds vs boot [] boot_holds) as (s1 & Hp & Hs1); [simpl; lia |].
  simpl in Hs1.
  destruct (pop_n_holds vs s1 Hs1) as (s2 & Hq & Hs2).
  destruct (empty_holds s2 Hs2) as (_ & Hsz & Hpop).
  exists s1, s2. repeat split; try done.
  pose proof (push_all_tail vs boot) as Ht. rewrite Hp in Ht; simpl in Ht.
  destruct Hs1 as ((_ & Hh & _) & Hlen & _).
  unfold stored, command_queue_get_size, u16, COMMAND_QUEUE_SIZE in *.
  rewrite Ht, Z.sub_0_r in *.
  rewrite Z.mod_small in Hlen by lia.
  destruct (0 <=? head s1) eqn:E; [| apply Z.leb_gt in E; lia].
  rewrite Z.mod_small by lia. lia.
Qed.

(** One push more: the 128th push on the initialized queue is accepted as
    well, and brings [head] round to [tail]. *)
Lemma overflow_128 (vs : list A) :
  length vs = Z.to_nat COMMAND_QUEUE_SIZE ->
  fst (push_all vs boot) = replicate (length vs) true /\
  command_queue_is_empty (snd (push_all vs boot)) = true /\
  command_queue_get_size (snd (push_all vs boot)) = 0 /\
  fst (command_queue_pop (snd (push_all vs boot))) = None.
Proof.
  intros Hn.
  destruct (rev vs) as [| v ws] eqn:Er.
  { apply (f_equal (@length A)) in Er. rewrite length_rev, Hn in Er. discriminate. }
  assert (vs = rev ws ++ [v]) as Hvs.
  { rewrite <- (rev_involutive vs), Er. reflexivity. }
  assert (length (rev ws) = 127%nat) as Hws.
  { rewrite Hvs, length_app in Hn. simpl in Hn. unfold COMMAND_QUEUE_SIZE in Hn. lia. }
  destruct (push_all_holds (rev ws) boot [] boot_holds) as (s1 & Hp & Hs1).
  { unfold COMMAND_QUEUE_SIZE. simpl. lia. }
  simpl in Hs1.
  pose proof (push_all_tail (rev ws) boot) as Ht. rewrite Hp in Ht; simpl in Ht.
  destruct Hs1 as ((_ & Hh & _) & Hlen & _).
  unfold stored, COMMAND_QUEUE_SIZE in *.
  rewrite Ht, Z.sub_0_r, Z.mod_small, Hws in Hlen by lia.
  rewrite Hvs, push_all_app, Hp; simpl.
  unfold command_queue_push, command_queue_get_size, command_queue_pop,
    command_queue_is_empty, u16, COMMAND_QUEUE_SIZE.
  rewrite Ht, <- Hlen; simpl.
  rewrite length_app, Hws; simpl.
  done.
Qed.

End QueueFacts.

(** C1.  The FIFO law of the command queue fails at its stated capacity:
    on the initialized queue 128 pushes all return true, but the 128th
    brings [head] back onto [tail], so the queue then reports size 0 and
    empty, and a pop returns false instead of the first pushed pointer. *)
Theorem C1_push_128_then_pop_fails :
  let r := CommandQueue.push_all pointers_128 CommandQueue.boot in
  length pointers_128 = 128%nat /\
  fst r = replicate 128 true /\
  CommandQueue.command_queue_get_size (snd r) = 0 /\
  CommandQueue.command_queue_is_empty (snd r) = true /\
  fst (CommandQueue.command_queue_pop (snd r)) = None /\
  fst (CommandQueue.pop_n 128 (snd r)) = replicate 128 None.
Proof.
  vm_compute. repeat split; reflexivity.
Qed.

(* ===================================================================== *)
(** ** The chess board: lemmas *)
(* ===================================================================== *)

Section ChessboardFacts.

Import Chessboard.

(** *** Lemmas *)

Lemma store_move_5 (a b c d e : Z) (move : list Z) :
  length move = 5%nat -> store_move a b c d e move = [a; b; c; d; e].
Proof.
  intros Hlen.
  destruct move as [| m0 [| m1 [| m2 [| m3 [| m4 [| m5 rest]]]]]]; try discriminate.
  reflexivity.
Qed.

Lemma scan_changes_fold (changes : Z) (ks : list nat) : forall bc,
  scan_changes ks changes bc =
  fold_left record_change
    (Z.of_nat <$> filter (fun k : nat => Is_true (Z.testbit changes (Z.of_nat k))) ks) bc.
Proof.
  induction ks as [| k ks IH]; intros bc; simpl; [done |].
  rewrite IH, filter_cons.
  destruct (Z.testbit changes (Z.of_nat k)) eqn:E.
  - rewrite decide_True by done. reflexivity.
  - rewrite decide_False by (intros []). reflexivity.
Qed.

Lemma fold_record_count (l : list Z) : forall bc,
  0 <= num_changes bc ->
  num_changes bc + Z.of_nat (length l) < 256 ->
  num_changes (fold_left record_change l bc) = num_changes bc + Z.of_nat (length l).
Proof.
  induction l as [| i l IH]; intros bc Hlo Hhi; simpl in *; [lia |].
  rewrite IH; unfold record_change, u8; simpl;
    rewrite Z.mod_small by lia; lia.
Qed.

Lemma differing_length_le (changes : Z) : (length (differing changes) <= 64)%nat.
Proof.
  unfold differing.
  etransitivity; [apply length_filter |]. by rewrite length_seq.
Qed.

(** The count the helper returns is the number of differing squares. *)
Lemma num_changes_differing (changes : Z) (i1 i2 i3 i4 : Z) :
  num_changes (utils_get_board_changes changes (mkChanges 0 i1 i2 i3 i4))
  = Z.of_nat (length (differing changes)).
Proof.
  unfold utils_get_board_changes. rewrite scan_changes_fold.
  pose proof (differing_length_le changes) as Hle.
  fold (differing changes). generalize dependent (differing changes).
  intros l Hle.
  rewrite fold_record_count; rewrite ?length_fmap; cbn [num_changes]; lia.
Qed.

Lemma changes_two (changes : Z) (i j : nat) :
  differing changes = [i; j] ->
  utils_get_board_changes changes (mkChanges 0 0xFF 0xFF 0xFF 0xFF)
  = mkChanges 2 (Z.of_nat i) (Z.of_nat j) 0xFF 0xFF.
Proof.
  intros Hd. unfold utils_get_board_changes. rewrite scan_changes_fold.
  unfold differing in Hd. rewrite Hd. reflexivity.
Qed.

Lemma differing_NoDup (changes : Z) : NoDup (differing changes).
Proof. apply NoDup_filter, NoDup_seq. Qed.

Lemma differing_bound (changes : Z) (k : nat) :
  k ∈ differing changes -> (k < 64)%nat /\ Z.testbit changes (Z.of_nat k) = true.
Proof.
  unfold differing. rewrite list_elem_of_filter, elem_of_seq.
  intros [Hb Hk]. split; [lia | by apply Is_true_eq_true].
Qed.

(** The C test [(presence >> index) & 0x01] reads bit [index]. *)
Lemma presence_bit_test (presence : Z) (i : nat) :
  negb (Z.land (Z.shiftr presence (Z.of_nat i)) 0x01 =? 0)
  = Z.testbit presence (Z.of_nat i).
Proof.
  change 0x01 with (Z.ones 1).
  rewrite Z.land_ones by lia. change (2 ^ 1) with 2.
  rewrite <- Z.bit0_mod, Z.shiftr_spec, Z.add_0_l by lia.
  by destruct (Z.testbit presence (Z.of_nat i)).
Qed.

Lemma bounded_forallb (f : nat -> bool) (n : nat) :
  forallb f (seq 0 n) = true -> forall k, (k < n)%nat -> f k = true.
Proof.
  intros Hall k Hk. rewrite forallb_forall in Hall.
  apply Hall, in_seq. lia.
Qed.

Lemma index_square_index_nat (k : nat) :
  (k < 64)%nat ->
  chessboard_square_to_index
    (fst (chessboard_index_to_square (Z.of_nat k)))
    (snd (chessboard_index_to_square (Z.of_nat k))) = Z.of_nat k.
Proof.
  intros Hk.
  apply Z.eqb_eq.
  revert k Hk.
  apply (bounded_forallb
    (fun k => chessboard_square_to_index
                (fst (chessboard_index_to_square (Z.of_nat k)))
                (snd (chessboard_index_to_square (Z.of_nat k))) =? Z.of_nat k) 64).
  vm_compute. reflexivity.
Qed.

End ChessboardFacts.

(** C8.  Square and index conversions: an index from 0 to 63 is recovered
    from the file and rank characters of its square; an index above 63 is
    written as the sentinel square of two question marks. *)
Theorem C8_square_index_round_trip (index : Z) :
  (0 <= index <= 63 ->
   let square := Chessboard.chessboard_index_to_square index in
   Chessboard.chessboard_square_to_index (fst square) (snd square) = index) /\
  (63 < index ->
   Chessboard.chessboard_index_to_square index = (ch "?", ch "?")).
Proof.
  split.
  - intros Hi. cbv zeta.
    rewrite <- (Z2Nat.id index) by lia.
    apply index_square_index_nat. lia.
  - intros Hi. unfold Chessboard.chessboard_index_to_square.
    apply Z.ltb_lt in Hi. rewrite Hi. reflexivity.
Qed.

Lemma C8_square_index_round_trip_witness :
  Chessboard.chessboard_square_to_index (ch "e") (ch "4") = 28 /\
  Chessboard.chessboard_index_to_square 28 = (ch "e", ch "4") /\
  Chessboard.chessboard_index_to_square 64 = (ch "?", ch "?").
Proof.
  pose proof (C8_square_index_round_trip 28) as [Hrt _].
  pose proof (C8_square_index_round_trip 64) as [_ Hq].
  split; [exact (Hrt ltac:(lia)) | split; [reflexivity | exact (Hq ltac:(lia))]].
Defined.

Section MoveInference.

Import Chessboard.

Variables WK WQ BK BQ : Z.

Lemma get_move_two (previous current : chess_board_t) (move : list Z) (i j : nat) :
  length move = 5%nat ->
  differing (Z.lxor (board_presence previous) (board_presence current)) = [i; j] ->
  chessboard_get_move WK WQ BK BQ previous current move =
  (true,
   if Z.testbit (board_presence previous) (Z.of_nat i)
   then square_chars i ++ square_chars j ++ [ch "_"]
   else square_chars j ++ square_chars i ++ [ch "_"]).
Proof.
  intros Hlen Hd. unfold chessboard_get_move. cbv zeta.
  rewrite (changes_two _ i j Hd). cbn [num_changes index1 index2].
  change (2 =? 2) with true. cbv iota.
  rewrite presence_bit_test.
  destruct (Z.testbit (board_presence previous) (Z.of_nat i));
    rewrite store_move_5 by done; reflexivity.
Qed.

Lemma get_move_count (previous current : chess_board_t) (move : list Z) :
  let changes := Z.lxor (board_presence previous) (board_presence current) in
  chessboard_get_move WK WQ BK BQ previous current move =
  if Z.of_nat (length (differing changes)) =? 2
  then chessboard_get_move WK WQ BK BQ previous current move
  else if Z.of_nat (length (differing changes)) =? 4
  then
    if changes =? WK then (true, store_move (ch "e") (ch "1") (ch "g") (ch "1") (ch "_") move)
    else if changes =? WQ then (true, store_move (ch "e") (ch "1") (ch "c") (ch "1") (ch "_") move)
    else if changes =? BK then (true, store_move (ch "e") (ch "8") (ch "g") (ch "8") (ch "_") move)
    else if changes =? BQ then (true, store_move (ch "e") (ch "8") (ch "c") (ch "8") (ch "_") move)
    else (false, move)
  else (false, move).
Proof.
  cbv zeta.
  destruct (Z.of_nat (length (differing _)) =? 2) eqn:E2; [reflexivity |].
  unfold chessboard_get_move. cbv zeta.
  rewrite num_changes_differing, E2. reflexivity.
Qed.

End MoveInference.

(** The characters [chessboard_index_to_square] writes for a square of the
    board are the letter of its file and the digit of its rank. *)
Lemma square_chars_name (k : nat) :
  (k < 64)%nat -> Chessboard.square_chars k = Chessboard.square_name k.
Proof.
  intros Hk.
  assert (forallb (fun k =>
            (fst (Chessboard.chessboard_index_to_square (Z.of_nat k))
               =? Chessboard.file_letters !!! (k mod 8)%nat)
            && (snd (Chessboard.chessboard_index_to_square (Z.of_nat k))
               =? Chessboard.rank_digits !!! (k / 8)%nat)) (seq 0 64) = true) as Hall
    by (vm_compute; reflexivity).
  pose proof (bounded_forallb _ 64 Hall k Hk) as Hcell. cbv beta in Hcell.
  apply andb_prop in Hcell as [Hf Hr]. apply Z.eqb_eq in Hf, Hr.
  unfold Chessboard.square_chars, Chessboard.square_name. cbv zeta.
  rewrite Hf, Hr. reflexivity.
Qed.

(** Two differing squares: what [chessboard_get_move] returns and writes. *)
Lemma two_squares_move
  (WK WQ BK BQ : Z) (previous current : Chessboard.chess_board_t) (move : list Z) :
  length move = 5%nat ->
  length (Chessboard.differing
            (Z.lxor (Chessboard.board_presence previous)
                    (Chessboard.board_presence current))) = 2%nat ->
  exists source destination : nat,
    source <> destination /\
    (Chessboard.differing
       (Z.lxor (Chessboard.board_presence previous) (Chessboard.board_presence current))
     = [source; destination] \/
     Chessboard.differing
       (Z.lxor (Chessboard.board_presence previous) (Chessboard.board_presence current))
     = [destination; source]) /\
    Chessboard.chessboard_get_move WK WQ BK BQ previous current move =
      (true,
       Chessboard.square_name source ++ Chessboard.square_name destination ++ [ch "_"]) /\
    (Z.testbit (Chessboard.board_presence previous) (Z.of_nat source) = true \/
     (Z.testbit (Chessboard.board_presence previous) (Z.of_nat source) = false /\
      Z.testbit (Chessboard.board_presence previous) (Z.of_nat destination) = false)).
Proof.
  intros Hlen Htwo.
  destruct (Chessboard.differing _) as [| i [| j [| k rest]]] eqn:Hd;
    try discriminate Htwo.
  assert (i <> j) as Hij.
  { pose proof (differing_NoDup
                  (Z.lxor (Chessboard.board_presence previous)
                          (Chessboard.board_presence current))) as Hnd.
    rewrite Hd in Hnd.
    apply NoDup_cons in Hnd as [Hni _]. intros ->. apply Hni. by left. }
  assert ((i < 64)%nat /\ (j < 64)%nat) as [Hi Hj].
  { assert (forall k, k ∈ [i; j] -> (k < 64)%nat) as Hb.
    { intros k Hk. rewrite <- Hd in Hk. by apply differing_bound in Hk as [Hk _]. }
    split; apply Hb; [by left | right; by left]. }
  pose proof (get_move_two WK WQ BK BQ previous current move i j Hlen Hd) as Hmv.
  rewrite (square_chars_name i Hi), (square_chars_name j Hj) in Hmv.
  destruct (Z.testbit (Chessboard.board_presence previous) (Z.of_nat i)) eqn:Hbit.
  - exists i, j. split; [exact Hij |]. split; [left; reflexivity |].
    split; [exact Hmv |]. left. exact Hbit.
  - exists j, i. split; [intros Heq; apply Hij; symmetry; exact Heq |].
    split; [right; reflexivity |]. split; [exact Hmv |].
    destruct (Z.testbit (Chessboard.board_presence previous) (Z.of_nat j));
      [left; reflexivity | right; split; [reflexivity | exact Hbit]].
Qed.




Example get_move_e2e4 :
  Chessboard.chessboard_get_move
    Chessboard.CASTLE_WHITE_K Chessboard.CASTLE_WHITE_Q
    Chessboard.CASTLE_BLACK_K Chessboard.CASTLE_BLACK_Q
    (Chessboard.chessboard_init (Chessboard.mkBoard 0 []))
    (Chessboard.mkBoard 0xFFFF00001000EFFF [])
    [ch "?"; ch "?"; ch "?"; ch "?"; ch "?"]
  = (true, [ch "e"; ch "2"; ch "e"; ch "4"; ch "_"]).
Proof. vm_compute. reflexivity. Qed.

(** C5.  Other presence differences.  With exactly four differing squares
    the move is accepted exactly when the difference is one of the four
    castling constants, and the king move written is the one of the first
    constant it equals (e1g1, e1c1, e8g8, e8c8); any other four-square
    difference is rejected and the buffer is left alone.  Every difference
    with a number of squares other than two and four is rejected. *)
Theorem C5_castling_or_rejected
  (WK WQ BK BQ : Z) (previous current : Chessboard.chess_board_t) (move : list Z) :
  let changes :=
    Z.lxor (Chessboard.board_presence previous) (Chessboard.board_presence current) in
  let result := Chessboard.chessboard_get_move WK WQ BK BQ previous current move in
  length move = 5%nat ->
  (length (Chessboard.differing changes) = 4%nat ->
     (fst result = true <->
        changes = WK \/ changes = WQ \/ changes = BK \/ changes = BQ) /\
     (changes = WK ->
        result = (true, [ch "e"; ch "1"; ch "g"; ch "1"; ch "_"])) /\
     (changes <> WK -> changes = WQ ->
        result = (true, [ch "e"; ch "1"; ch "c"; ch "1"; ch "_"])) /\
     (changes <> WK -> changes <> WQ -> changes = BK ->
        result = (true, [ch "e"; ch "8"; ch "g"; ch "8"; ch "_"])) /\
     (changes <> WK -> changes <> WQ -> changes <> BK -> changes = BQ ->
        result = (true, [ch "e"; ch "8"; ch "c"; ch "8"; ch "_"])) /\
     (changes <> WK -> changes <> WQ -> changes <> BK -> changes <> BQ ->
        result = (false, move))) /\
  (length (Chessboard.differing changes) <> 2%nat ->
   length (Chessboard.differing changes) <> 4%nat ->
   result = (false, move)).
Proof.
  intros changes result Hlen.
  pose proof (get_move_count WK WQ BK BQ previous current move) as Hmv.
  cbv zeta in Hmv. fold changes in Hmv. fold result in Hmv.
  split.
  - intros H4. rewrite H4 in Hmv. change (Z.of_nat 4 =? 2) with false in Hmv.
    change (Z.of_nat 4 =? 4) with true in Hmv. cbv iota in Hmv.
    rewrite !store_move_5 in Hmv by exact Hlen.
    destruct (Z.eqb_spec changes WK) as [EWK | NWK];
      [| destruct (Z.eqb_spec changes WQ) as [EWQ | NWQ];
         [| destruct (Z.eqb_spec changes BK) as [EBK | NBK];
            [| destruct (Z.eqb_spec changes BQ) as [EBQ | NBQ]]]];
      rewrite Hmv; cbn [fst];
      (split; [split; [intros Ht; tauto || discriminate Ht | intros Hor; reflexivity || tauto] |]);
      repeat split; intros; reflexivity || tauto.
  - intros N2 N4.
    destruct (Z.eqb_spec (Z.of_nat (length (Chessboard.differing changes))) 2) as [E2 | _];
      [exfalso; apply N2; lia |].
    destruct (Z.eqb_spec (Z.of_nat (length (Chessboard.differing changes))) 4) as [E4 | _];
      [exfalso; apply N4; lia |].
    exact Hmv.
Qed.

(** White king-side castling (e1, f1, g1, h1 change) is read as e1g1; with
    the king lifted alone and three more squares disturbed the move is
    rejected; so is a single changed square. *)
Lemma C5_castling_or_rejected_witness :
  Chessboard.chessboard_get_move
    Chessboard.CASTLE_WHITE_K Chessboard.CASTLE_WHITE_Q
    Chessboard.CASTLE_BLACK_K Chessboard.CASTLE_BLACK_Q
    (Chessboard.mkBoard 0xFFFF00000000FF9F [])
    (Chessboard.mkBoard 0xFFFF00000000FF6F [])
    [ch "?"; ch "?"; ch "?"; ch "?"; ch "?"]
  = (true, [ch "e"; ch "1"; ch "g"; ch "1"; ch "_"]) /\
  Chessboard.chessboard_get_move
    Chessboard.CASTLE_WHITE_K Chessboard.CASTLE_WHITE_Q
    Chessboard.CASTLE_BLACK_K Chessboard.CASTLE_BLACK_Q
    (Chessboard.mkBoard 0xFFFF00000000FFFF [])
    (Chessboard.mkBoard 0xFFFF00000000FFFE [])
    [ch "?"; ch "?"; ch "?"; ch "?"; ch "?"]
  = (false, [ch "?"; ch "?"; ch "?"; ch "?"; ch "?"]).
Proof.
  split.
  - exact (proj1 (proj2 (proj1
      (C5_castling_or_rejected
         Chessboard.CASTLE_WHITE_K Chessboard.CASTLE_WHITE_Q
         Chessboard.CASTLE_BLACK_K Chessboard.CASTLE_BLACK_Q
         (Chessboard.mkBoard 0xFFFF00000000FF9F [])
         (Chessboard.mkBoard 0xFFFF00000000FF6F [])
         [ch "?"; ch "?"; ch "?"; ch "?"; ch "?"] eq_refl) eq_refl)) eq_refl).
  - apply (proj2
      (C5_castling_or_rejected
         Chessboard.CASTLE_WHITE_K Chessboard.CASTLE_WHITE_Q
         Chessboard.CASTLE_BLACK_K Chessboard.CASTLE_BLACK_Q
         (Chessboard.mkBoard 0xFFFF00000000FFFF [])
         (Chessboard.mkBoard 0xFFFF00000000FFFE [])
         [ch "?"; ch "?"; ch "?"; ch "?"; ch "?"] eq_refl));
      vm_compute; intros Hn; discriminate Hn.
Defined.

(* ===================================================================== *)
(** ** The switches: lemmas *)
(* ===================================================================== *)

Section SwitchFacts.

Import Switch.

(** *** Lemmas *)

Lemma testbit_u16 (z n : Z) :
  0 <= n -> Z.testbit (u16 z) n = (n <? 16) && Z.testbit z n.
Proof.
  intros Hn. unfold u16. change 65536 with (2 ^ 16).
  apply Z.testbit_mod_pow2. lia.
Qed.

Lemma u16_u16 (z : Z) : u16 (u16 z) = u16 z.
Proof. unfold u16. apply Z.mod_mod. lia. Qed.

(** Between interrupts the two snapshots agree. *)
Lemma run_snapshots_agree (images : list Z) : forall switches,
  previous_inputs switches = current_inputs switches ->
  previous_inputs (run images switches) = current_inputs (run images switches).
Proof.
  induction images as [| image images IH]; intros switches Hagree; simpl; [done |].
  apply IH. reflexivity.
Qed.

End SwitchFacts.

(** C10.  Edge detection.  After the handler has run on a new reading (any
    number of interrupts after start-up), the rising and falling masks are
    disjoint, together they are the XOR of the new reading with the inputs
    recorded before, the rising mask holds exactly the bits that are set now
    and were clear, the falling mask exactly the bits that are clear now and
    were set, and the previous-inputs snapshot equals the current one. *)
Theorem C10_switch_edges (earlier : list Z) (image : Z) :
  let before := Switch.run earlier Switch.static_switches in
  let after := Switch.SWITCH_HANDLER image before in
  Switch.reading image ->
  Z.land (Switch.pos_transitions after) (Switch.neg_transitions after) = 0 /\
  Z.lor (Switch.pos_transitions after) (Switch.neg_transitions after)
    = Z.lxor image (Switch.current_inputs before) /\
  (forall n, 0 <= n ->
     Z.testbit (Switch.pos_transitions after) n
     = Z.testbit image n && negb (Z.testbit (Switch.current_inputs before) n)) /\
  (forall n, 0 <= n ->
     Z.testbit (Switch.neg_transitions after) n
     = negb (Z.testbit image n) && Z.testbit (Switch.current_inputs before) n) /\
  Switch.current_inputs after = image /\
  Switch.previous_inputs after = Switch.current_inputs after.
Proof.
  intros before after Himage.
  assert (Switch.previous_inputs before = Switch.current_inputs before) as Hagree
    by (apply run_snapshots_agree; reflexivity).
  assert (u16 (Switch.current_inputs before) = Switch.current_inputs before) as Hold.
  { subst before. destruct (rev earlier) as [| last firsts] eqn:Er.
    - apply (f_equal (@rev Z)) in Er. rewrite rev_involutive in Er. rewrite Er. reflexivity.
    - apply (f_equal (@rev Z)) in Er. rewrite rev_involutive in Er. rewrite Er. simpl.
      unfold Switch.run. rewrite fold_left_app. simpl. apply u16_u16. }
  assert (u16 image = image) as Hnew by (apply Z.mod_small; exact Himage).
  assert (forall n, 0 <= n -> 16 <= n -> Z.testbit image n = false) as Hhi.
  { intros n Hn H16. rewrite <- Hnew, testbit_u16 by lia.
    destruct (Z.ltb_spec n 16); [lia | reflexivity]. }
  assert (forall n, 0 <= n -> 16 <= n ->
    Z.testbit (Switch.current_inputs before) n = false) as Hhi'.
  { intros n Hn H16. rewrite <- Hold, testbit_u16 by lia.
    destruct (Z.ltb_spec n 16); [lia | reflexivity]. }
  subst after. unfold Switch.SWITCH_HANDLER. cbn [Switch.pos_transitions
    Switch.neg_transitions Switch.current_inputs Switch.previous_inputs].
  rewrite Hagree, Hnew.
  assert (forall n, 0 <= n ->
    Z.testbit (u16 (Z.land image (u16 (Z.lxor image (Switch.current_inputs before))))) n
    = Z.testbit image n && negb (Z.testbit (Switch.current_inputs before) n)) as Hpos.
  { intros n Hn. rewrite testbit_u16, Z.land_spec, testbit_u16, Z.lxor_spec by lia.
    destruct (Z.ltb_spec n 16) as [Hlt | Hge].
    - destruct (Z.testbit image n), (Z.testbit (Switch.current_inputs before) n); reflexivity.
    - rewrite Hhi by lia. reflexivity. }
  assert (forall n, 0 <= n ->
    Z.testbit (u16 (Z.land (Z.lnot image) (u16 (Z.lxor image (Switch.current_inputs before))))) n
    = negb (Z.testbit image n) && Z.testbit (Switch.current_inputs before) n) as Hneg.
  { intros n Hn.
    rewrite testbit_u16, Z.land_spec, Z.lnot_spec, testbit_u16, Z.lxor_spec by lia.
    destruct (Z.ltb_spec n 16) as [Hlt | Hge].
    - destruct (Z.testbit image n), (Z.testbit (Switch.current_inputs before) n); reflexivity.
    - rewrite Hhi, Hhi' by lia. reflexivity. }
  repeat split; try assumption; try reflexivity.
  - apply Z.bits_inj'. intros n Hn.
    rewrite Z.land_spec, Hpos, Hneg, Z.bits_0 by lia.
    destruct (Z.testbit image n), (Z.testbit (Switch.current_inputs before) n); reflexivity.
  - apply Z.bits_inj'. intros n Hn.
    rewrite Z.lor_spec, Hpos, Hneg, Z.lxor_spec by lia.
    destruct (Z.testbit image n), (Z.testbit (Switch.current_inputs before) n); reflexivity.
Qed.

(** Two interrupts: the first reads 0b0101, the second 0b0110; bit 1 rose and
    bit 0 fell. *)
Lemma C10_switch_edges_witness :
  let after := Switch.SWITCH_HANDLER 6 (Switch.run [5] Switch.static_switches) in
  Z.land (Switch.pos_transitions after) (Switch.neg_transitions after) = 0 /\
  Z.lor (Switch.pos_transitions after) (Switch.neg_transitions after) = Z.lxor 6 5 /\
  Switch.pos_transitions after = 2 /\
  Switch.neg_transitions after = 1 /\
  Switch.previous_inputs after = Switch.current_inputs after.
Proof.
  destruct (C10_switch_edges [5] 6 ltac:(unfold Switch.reading; lia))
    as (Hdisj & Hor & _ & _ & _ & Hprev).
  cbv zeta. split; [exact Hdisj |]. split; [exact Hor |].
  split; [reflexivity |]. split; [reflexivity | exact Hprev].
Defined.

(* ===================================================================== *)
(** ** The link: lemmas *)
(* ===================================================================== *)

Section LinkFacts.

Import RaspberryPi.

(** *** Lemmas *)

Lemma transmit_string_tx (operand : list Z) : forall (after : list Z) (u : uart),
  Forall (fun c => 0 < c < 256) operand ->
  transmit_string (operand ++ 0 :: after) u
  = Some {| rx := rx u; tx := tx u ++ operand |}.
Proof.
  induction operand as [| c operand IH]; intros after u Hop; simpl.
  - rewrite app_nil_r. by destruct u.
  - apply Forall_cons in Hop as [Hc Hop].
    destruct (Z.eqb_spec c 0) as [-> | _]; [lia |].
    rewrite IH by exact Hop. unfold uart_out_byte, u8; simpl.
    rewrite Z.mod_small by lia. rewrite <- app_assoc. reflexivity.
Qed.

(** What [rpi_transmit_human_move] puts on the wire for a string of non-zero
    characters: the start byte, the instruction byte and the characters,
    nothing after them. *)
Lemma transmit_human_move_tx (operand after : list Z) (u : uart) :
  Forall (fun c => 0 < c < 256) operand ->
  rpi_transmit_human_move (operand ++ 0 :: after) u
  = Some {| rx := rx u;
            tx := tx u ++ [START_BYTE; HUMAN_MOVE_INSTR_AND_LEN] ++ operand |}.
Proof.
  intros Hop. unfold rpi_transmit_human_move.
  rewrite transmit_string_tx by exact Hop. simpl.
  rewrite <- !app_assoc. reflexivity.
Qed.

(** Receiving never writes to the wire. *)
Lemma rpi_receive_tx (size : nat) (u : uart) :
  tx (snd (rpi_receive size u)) = tx u.
Proof.
  unfold rpi_receive. destruct (take_exact size (rx u)) as [[bs rest] |]; reflexivity.
Qed.

End LinkFacts.

(** C6.  The human-move transmission of raspberrypi.c is not a complete
    frame: for the move e2e4_ it puts the start byte, the instruction byte
    and the five move characters on the wire, 7 bytes instead of the 9 of a
    human-move instruction, and no check bytes follow. *)
Theorem C6_human_move_sent_without_check_bytes :
  let move := [ch "e"; ch "2"; ch "e"; ch "4"; ch "_"; 0] in
  exists u,
    RaspberryPi.rpi_transmit_human_move move (RaspberryPi.mkUart [] []) = Some u /\
    RaspberryPi.tx u = [0x0A; 0x35; ch "e"; ch "2"; ch "e"; ch "4"; ch "_"] /\
    length (RaspberryPi.tx u) = 7%nat /\
    length (RaspberryPi.tx u) <> RaspberryPi.HUMAN_MOVE_INSTR_LENGTH.
Proof.
  eexists. split; [reflexivity |]. split; [reflexivity |].
  split; [reflexivity |]. vm_compute. intros Hn. discriminate Hn.
Qed.

(* ===================================================================== *)
(** ** The transmit task *)
(* ===================================================================== *)

Section Transmit.

Import RaspberryPi Gantry.

Lemma transmit_string_c_string (memory : list Z) : forall u u',
  transmit_string memory u = Some u' ->
  tx u' = tx u ++ (u8 <$> c_string memory) /\ rx u' = rx u.
Proof.
  induction memory as [| c memory IH]; intros u u' Hsend; simpl in *; [discriminate Hsend |].
  destruct (c =? 0).
  - injection Hsend as <-. rewrite app_nil_r. done.
  - apply IH in Hsend as [Htx Hrx]. simpl in *.
    rewrite Htx, <- app_assoc. done.
Qed.

Lemma transmit_string_total (memory : list Z) : forall u,
  In 0 memory -> exists u', transmit_string memory u = Some u'.
Proof.
  induction memory as [| c memory IH]; intros u Hin; simpl in *; [contradiction |].
  destruct (Z.eqb_spec c 0) as [-> | Hc]; [by eexists |].
  destruct Hin as [-> | Hin]; [contradiction |].
  by apply IH.
Qed.

(** A call with the flag clear only polls: it returns, writes nothing to
    the wire, leaves the flag clear, and records completion exactly when the
    byte it reads is the acknowledgement. *)
Lemma comm_action_poll (c : gantry_command_t) (after : list Z) (g : gantry_state) :
  msg_ready_to_send g = false ->
  exists g',
    gantry_comm_action c after g = Some g' /\
    tx (rpi g') = tx (rpi g) /\
    msg_ready_to_send g' = false /\
    (comm_is_done g' = true <->
     comm_is_done g = true \/ exists rest, rx (rpi g) = ACK_BYTE :: rest).
Proof.
  intros Hflag. unfold gantry_comm_action. rewrite Hflag.
  destruct g as [rd cd flag running value pb cb [rxs txs] q]; simpl in *.
  unfold rpi_receive; simpl.
  destruct rxs as [| b rest]; simpl.
  - eexists; split; [reflexivity |]. simpl. repeat split; try done.
    + intros Hd; by left.
    + intros [Hd | [rest Hrest]]; [done | discriminate Hrest].
  - destruct (Z.eqb_spec b ACK_BYTE) as [-> | Hb].
    + eexists; split; [reflexivity |]. simpl. repeat split; try done.
      intros _. right. by exists rest.
    + eexists; split; [reflexivity |]. simpl. repeat split; try done.
      * intros Hd; by left.
      * intros [Hd | [rest' Hrest]]; [done |]. injection Hrest as -> _. contradiction.
Qed.

Lemma comm_actions_poll (n : nat) (c : gantry_command_t) (after : list Z) :
  forall g,
    msg_ready_to_send g = false ->
    exists g',
      comm_actions n c after g = Some g' /\
      tx (rpi g') = tx (rpi g) /\
      msg_ready_to_send g' = false.
Proof.
  induction n as [| n IH]; intros g Hflag; simpl.
  - by exists g.
  - destruct (comm_action_poll c after g Hflag) as (g1 & Hact & Htx & Hflag1 & _).
    rewrite Hact. destruct (IH g1 Hflag1) as (g' & Hrun & Htx' & Hflag').
    exists g'. repeat split; try done. congruence.
Qed.

End Transmit.

(** C9.  The transmit action never sends twice.  With the flag set (and the
    move string terminated) the call sends the human move once and clears
    the flag; with the flag clear a call only polls: nothing is written to
    the wire, the flag stays clear, and completion is recorded exactly when
    the byte read is 0x0F.  So after a sending call, any number of further
    calls leaves the wire as that call left it. *)
Theorem C9_transmit_sends_once
  (c : Gantry.gantry_command_t) (after : list Z) (g : Gantry.gantry_state) :
  (Gantry.msg_ready_to_send g = true ->
   In 0 (Gantry.move_to_send c ++ after) ->
   exists g1,
     Gantry.gantry_comm_action c after g = Some g1 /\
     Gantry.msg_ready_to_send g1 = false /\
     RaspberryPi.tx (Gantry.rpi g1) =
       RaspberryPi.tx (Gantry.rpi g)
       ++ [RaspberryPi.START_BYTE; RaspberryPi.HUMAN_MOVE_INSTR_AND_LEN]
       ++ (u8 <$> c_string (Gantry.move_to_send c ++ after)) /\
     forall n, exists gn,
       comm_actions n c after g1 = Some gn /\
       RaspberryPi.tx (Gantry.rpi gn) = RaspberryPi.tx (Gantry.rpi g1) /\
       Gantry.msg_ready_to_send gn = false) /\
  (Gantry.msg_ready_to_send g = false ->
   exists g1,
     Gantry.gantry_comm_action c after g = Some g1 /\
     RaspberryPi.tx (Gantry.rpi g1) = RaspberryPi.tx (Gantry.rpi g) /\
     Gantry.msg_ready_to_send g1 = false /\
     (Gantry.comm_is_done g1 = true <->
      Gantry.comm_is_done g = true \/
      exists rest, RaspberryPi.rx (Gantry.rpi g) = RaspberryPi.ACK_BYTE :: rest)).
Proof.
  split.
  - intros Hflag Hnul.
    destruct (transmit_string_total (Gantry.move_to_send c ++ after)
                (RaspberryPi.uart_out_byte RaspberryPi.HUMAN_MOVE_INSTR_AND_LEN
                   (RaspberryPi.uart_out_byte RaspberryPi.START_BYTE (Gantry.rpi g))) Hnul)
      as (u & Hsend).
    pose proof (transmit_string_c_string _ _ _ Hsend) as [Htx _].
    unfold Gantry.gantry_comm_action, RaspberryPi.rpi_transmit_human_move.
    rewrite Hflag. cbv zeta. rewrite Hsend.
    eexists. split; [reflexivity |]. split; [reflexivity |].
    split.
    + simpl. rewrite Htx. simpl. rewrite <- !app_assoc. reflexivity.
    + intros n. apply comm_actions_poll. reflexivity.
  - apply comm_action_poll.
Qed.

Lemma C9_transmit_sends_once_witness :
  let c := Gantry.gantry_comm_build_command example_externals
             [ch "e"; ch "2"; ch "e"; ch "4"; ch "_"] in
  exists g1,
    Gantry.gantry_comm_action c [0] (example_state true [0x0F]) = Some g1 /\
    Gantry.msg_ready_to_send g1 = false /\
    RaspberryPi.tx (Gantry.rpi g1) =
      RaspberryPi.tx (Gantry.rpi (example_state true [0x0F]))
      ++ [RaspberryPi.START_BYTE; RaspberryPi.HUMAN_MOVE_INSTR_AND_LEN]
      ++ (u8 <$> c_string (Gantry.move_to_send c ++ [0])) /\
    forall n, exists gn,
      comm_actions n c [0] g1 = Some gn /\
      RaspberryPi.tx (Gantry.rpi gn) = RaspberryPi.tx (Gantry.rpi g1) /\
      Gantry.msg_ready_to_send gn = false.
Proof.
  apply (proj1 (C9_transmit_sends_once
                  (Gantry.gantry_comm_build_command example_externals
                     [ch "e"; ch "2"; ch "e"; ch "4"; ch "_"])
                  [0] (example_state true [0x0F]))).
  - reflexivity.
  - vm_compute. do 5 right. left. reflexivity.
Defined.

Example comm_action_then_ack :
  let c := Gantry.gantry_comm_build_command example_externals
             [ch "e"; ch "2"; ch "e"; ch "4"; ch "_"] in
  exists g1 g2,
    Gantry.gantry_comm_action c [0] (example_state true [0x0F]) = Some g1 /\
    RaspberryPi.tx (Gantry.rpi g1) = [0x0A; 0x35; ch "e"; ch "2"; ch "e"; ch "4"; ch "_"] /\
    Gantry.comm_is_done g1 = false /\
    Gantry.gantry_comm_action c [0] g1 = Some g2 /\
    RaspberryPi.tx (Gantry.rpi g2) = RaspberryPi.tx (Gantry.rpi g1) /\
    Gantry.comm_is_done g2 = true.
Proof.
  eexists. eexists. vm_compute.
  split; [reflexivity |]. split; [reflexivity |]. split; [reflexivity |].
  split; [reflexivity |]. split; reflexivity.
Qed.

(* ===================================================================== *)
(** ** The robot-reply task *)
(* ===================================================================== *)

Section RobotReply.

Import RaspberryPi Gantry.

Variable ext : externals.

Lemma gantry_home_no_human :
  Forall (fun c => is_human_command c = false) (gantry_home ext).
Proof. unfold gantry_home. repeat constructor. Qed.

Lemma compile_move_no_human (m : chess_move_t) :
  Forall (fun c => is_human_command c = false) (compile_move ext m).
Proof.
  unfold compile_move.
  destruct (move_type m); destruct (source_missing ext m);
    repeat (apply Forall_cons; split; [reflexivity |]);
    try apply gantry_home_no_human; apply Forall_nil; exact I.
Qed.

Lemma compile_move_length (m : chess_move_t) :
  (length (compile_move ext m) <= 14)%nat.
Proof.
  unfold compile_move.
  destruct (move_type m); destruct (source_missing ext m); simpl; lia.
Qed.

Lemma exit_pushes_length (c : gantry_command_t) :
  (length (gantry_robot_exit_pushes ext c) <= 15)%nat.
Proof.
  unfold gantry_robot_exit_pushes. rewrite length_app.
  pose proof (compile_move_length (move c)).
  destruct (game_status c); simpl; lia.
Qed.

Lemma exit_pushes_human (c : gantry_command_t) :
  existsb is_human_command (gantry_robot_exit_pushes ext c) = true
  <-> game_status c = ONGOING.
Proof.
  unfold gantry_robot_exit_pushes. rewrite existsb_app.
  assert (existsb is_human_command (compile_move ext (move c)) = false) as ->.
  { pose proof (compile_move_no_human (move c)) as Hno.
    induction Hno as [| x l Hx _ IH]; simpl; [reflexivity |].
    rewrite Hx, IH. reflexivity. }
  destruct (game_status c); simpl; split; intros Hs; try reflexivity; discriminate Hs.
Qed.

(** The queue after [gantry_robot_exit], when it has room for the pushes. *)
Lemma exit_queue (c : gantry_command_t) (g : gantry_state) (waiting : list command_t) :
  CommandQueue.holds (commands g) waiting ->
  (length waiting <= 112)%nat ->
  CommandQueue.holds (commands (gantry_robot_exit ext c g))
    (waiting ++ gantry_robot_exit_pushes ext c).
Proof.
  intros Hq Hroom.
  pose proof (exit_pushes_length c) as Hlen.
  destruct (push_all_holds (gantry_robot_exit_pushes ext c)
              (commands g) waiting Hq) as (q & Hpush & Hq').
  { unfold CommandQueue.COMMAND_QUEUE_SIZE. lia. }
  unfold gantry_robot_exit. cbv zeta. rewrite Hpush. exact Hq'.
Qed.

End RobotReply.

(** C7.  The exit of the robot-reply task pushes the commands of the
    compiled move and then a fresh human-sense command if and only if the
    game status of the command is ONGOING; for HUMAN_WIN, ROBOT_WIN and
    STALEMATE no human-sense command is among the pushes.  With room in the
    queue the pushes are what the queue holds after what was waiting. *)
Theorem C7_human_task_iff_ongoing
  (ext : Gantry.externals) (c : Gantry.gantry_command_t) (g : Gantry.gantry_state) :
  let pushed := Gantry.gantry_robot_exit_pushes ext c in
  (existsb Gantry.is_human_command pushed = true
   <-> Gantry.game_status c = RaspberryPi.ONGOING) /\
  (Gantry.game_status c = RaspberryPi.ONGOING ->
   pushed = Gantry.compile_move ext (Gantry.move c)
            ++ [Gantry.gantry_command (Gantry.gantry_human_build_command ext)]) /\
  (Gantry.game_status c <> RaspberryPi.ONGOING ->
   pushed = Gantry.compile_move ext (Gantry.move c) /\
   Forall (fun x => Gantry.is_human_command x = false) pushed) /\
  (forall waiting : list Gantry.command_t,
     CommandQueue.holds (Gantry.commands g) waiting ->
     (length waiting <= 112)%nat ->
     CommandQueue.holds (Gantry.commands (Gantry.gantry_robot_exit ext c g))
       (waiting ++ pushed)).
Proof.
  intros pushed.
  split; [exact (exit_pushes_human ext c) |].
  subst pushed. unfold Gantry.gantry_robot_exit_pushes.
  split; [| split].
  - intros ->. reflexivity.
  - intros Hterm.
    destruct (Gantry.game_status c); try contradiction;
      rewrite app_nil_r; (split; [reflexivity | apply compile_move_no_human]).
  - intros waiting Hq Hroom. exact (exit_queue ext c g waiting Hq Hroom).
Qed.

(** On the empty queue, the exit for the move e7e5 with the game on leaves
    the compiled commands and a human-sense command in the queue; with the
    game won by the robot no human-sense command is pushed. *)
Lemma C7_human_task_iff_ongoing_witness :
  let c := Gantry.mkCommand Gantry.robot_functions
             (RaspberryPi.mkMove 4 6 4 4 RaspberryPi.MOVE) RaspberryPi.ONGOING
             [ch "e"; ch "7"; ch "e"; ch "5"; ch "_"]
             [ch "?"; ch "?"; ch "?"; ch "?"; ch "?"] in
  let c_won := Gantry.set_game_status RaspberryPi.ROBOT_WIN c in
  CommandQueue.holds
    (Gantry.commands (Gantry.gantry_robot_exit example_externals c (example_state false [])))
    ([] ++ Gantry.compile_move example_externals (Gantry.move c)
        ++ [Gantry.gantry_command (Gantry.gantry_human_build_command example_externals)]) /\
  Forall (fun x => Gantry.is_human_command x = false)
    (Gantry.gantry_robot_exit_pushes example_externals c_won).
Proof.
  intros c c_won.
  destruct (C7_human_task_iff_ongoing example_externals c (example_state false []))
    as (_ & Hon & _ & Hqueue).
  destruct (C7_human_task_iff_ongoing example_externals c_won (example_state false []))
    as (_ & _ & Hterm & _).
  split.
  - rewrite <- (Hon eq_refl).
    apply Hqueue; [exact boot_holds | simpl; lia].
  - apply Hterm. intros Hn. discriminate Hn.
Defined.

(** The end-to-end scenario of the spec, at the exit of the robot-reply
    task: the move e7e5 with the game on is compiled into go-to-e7, delay,
    go-to-e5, delay, the homing commands, and a fresh human-sense command. *)
Example exit_pushes_e7e5 :
  Gantry.gantry_robot_exit_pushes example_externals
    (Gantry.mkCommand Gantry.robot_functions
       (RaspberryPi.mkMove 4 6 4 4 RaspberryPi.MOVE) RaspberryPi.ONGOING
       [ch "e"; ch "7"; ch "e"; ch "5"; ch "_"]
       [ch "?"; ch "?"; ch "?"; ch "?"; ch "?"])
  = [ Gantry.stepper_chess_xy_command 4 6 1 1; Gantry.delay_command 1000;
      Gantry.stepper_chess_xy_command 4 4 1 1; Gantry.delay_command 1000 ]
    ++ Gantry.gantry_home example_externals
    ++ [Gantry.gantry_command (Gantry.gantry_human_build_command example_externals)].
Proof. reflexivity. Qed.

Section RobotAction.

Import RaspberryPi Gantry.

Variable ext : externals.

Lemma robot_action_robot_frame (c : gantry_command_t) (check_bytes : list Z)
  (g : gantry_state) (il m0 m1 m2 m3 m4 status c0 c1 : Z) (rest : list Z) :
  rx (rpi g) = START_BYTE :: il :: m0 :: m1 :: m2 :: m3 :: m4 :: status :: c0 :: c1 :: rest ->
  instruction il = ROBOT_MOVE_INSTR ->
  gantry_robot_action ext c check_bytes g =
  if utils_validate_transmission ext [START_BYTE; il; m0; m1; m2; m3; m4; status] [c0; c1]
  then accept_robot_move ext [m0; m1; m2; m3; m4] status c
         (set_rpi {| rx := rest; tx := tx (rpi g) ++ [ACK_BYTE] |} g)
  else (c, set_rpi {| rx := rest; tx := tx (rpi g) |} g).
Proof.
  intros Hrx Hinstr. unfold instruction in Hinstr.
  destruct g as [rd cd flag running value pb cb [rxs txs] q]. simpl in Hrx. subst rxs.
  unfold gantry_robot_action, rpi_receive. cbn -[Z.shiftr u8 Z.eqb].
  change (START_BYTE =? START_BYTE) with true. cbn [negb].
  rewrite Hinstr. change (ROBOT_MOVE_INSTR =? ROBOT_MOVE_INSTR) with true. cbv iota.
  destruct (utils_validate_transmission ext _ _); reflexivity.
Qed.

Lemma robot_action_illegal_frame (c : gantry_command_t) (check_bytes : list Z)
  (g : gantry_state) (il c0 c1 : Z) (rest : list Z) :
  rx (rpi g) = START_BYTE :: il :: c0 :: c1 :: rest ->
  instruction il = ILLEGAL_MOVE_INSTR ->
  gantry_robot_action ext c check_bytes g =
  if utils_validate_transmission ext [START_BYTE; il] [c0; c1]
  then (set_move_type IDLE c,
        set_robot_is_done true (set_rpi {| rx := rest; tx := tx (rpi g) ++ [ACK_BYTE] |} g))
  else (c, set_rpi {| rx := rest; tx := tx (rpi g) |} g).
Proof.
  intros Hrx Hinstr. unfold instruction in Hinstr.
  destruct g as [rd cd flag running value pb cb [rxs txs] q]. simpl in Hrx. subst rxs.
  unfold gantry_robot_action, rpi_receive. cbn -[Z.shiftr u8 Z.eqb].
  change (START_BYTE =? START_BYTE) with true. cbn [negb].
  rewrite Hinstr.
  change (ILLEGAL_MOVE_INSTR =? ROBOT_MOVE_INSTR) with false.
  change (ILLEGAL_MOVE_INSTR =? ILLEGAL_MOVE_INSTR) with true. cbv iota.
  destruct (utils_validate_transmission ext _ _); reflexivity.
Qed.

Lemma robot_action_no_frame (c : gantry_command_t) (check_bytes : list Z)
  (g : gantry_state) :
  no_frame (rx (rpi g)) ->
  fst (gantry_robot_action ext c check_bytes g) = c /\
  previous_board (snd (gantry_robot_action ext c check_bytes g)) = previous_board g /\
  tx (rpi (snd (gantry_robot_action ext c check_bytes g))) = tx (rpi g) /\
  robot_is_done (snd (gantry_robot_action ext c check_bytes g)) = robot_is_done g.
Proof.
  intros Hno.
  destruct g as [rd cd flag running value pb cb [rxs txs] q]. simpl in Hno.
  unfold gantry_robot_action, rpi_receive.
  inversion Hno as [Hrx | b rest Hb Hrx | Hrx | il rest Hr Hi Hrx | il body Hr Hlen Hrx];
    subst rxs; cbn -[Z.shiftr u8 Z.eqb].
  - done.
  - destruct (Z.eqb_spec b START_BYTE) as [-> | _]; [contradiction | done].
  - done.
  - change (START_BYTE =? START_BYTE) with true. cbn [negb].
    unfold instruction in *.
    destruct (Z.eqb_spec (u8 (Z.shiftr il 4)) ROBOT_MOVE_INSTR) as [E | _]; [contradiction |].
    destruct (Z.eqb_spec (u8 (Z.shiftr il 4)) ILLEGAL_MOVE_INSTR) as [E | _]; [contradiction |].
    done.
  - change (START_BYTE =? START_BYTE) with true. cbn [negb].
    unfold instruction in *. rewrite Hr.
    change (ROBOT_MOVE_INSTR =? ROBOT_MOVE_INSTR) with true. cbv iota.
    destruct body as [| b0 [| b1 [| b2 [| b3 [| b4 [| b5 body]]]]]];
      simpl in Hlen; try lia; done.
Qed.

(** The two halves of the status byte, as the action computes them. *)
Lemma status_nibbles (status : Z) :
  0 <= status < 256 ->
  u8 (Z.shiftr status 4) = status / 16 /\
  u8 (Z.land status (Z.lnot 0xF0)) = status mod 16.
Proof.
  intros Hs.
  assert (forall k : nat, (k < 256)%nat ->
            (u8 (Z.shiftr (Z.of_nat k) 4) =? Z.of_nat k / 16)
            && (u8 (Z.land (Z.of_nat k) (Z.lnot 0xF0)) =? Z.of_nat k mod 16) = true) as Hall.
  { apply bounded_forallb. vm_compute. reflexivity. }
  specialize (Hall (Z.to_nat status) ltac:(lia)).
  rewrite Z2Nat.id in Hall by lia.
  apply andb_prop in Hall as [H1 H2].
  split; by apply Z.eqb_eq.
Qed.

End RobotAction.

(** C3.  For a robot-move frame that passes validation, the two halves of
    the status byte decide the game status of the command, in this order:
    checkmate in the high half (after the human's move) gives HUMAN_WIN and
    the move type IDLE; else checkmate in the low half (after the robot's
    move) gives ROBOT_WIN with the move decoded from the frame; else
    stalemate in the high half gives STALEMATE and IDLE; else stalemate in the
    low half gives STALEMATE with the move decoded; else ONGOING with the move
    decoded. *)
Theorem C3_status_byte_decides_game_status
  (ext : Gantry.externals) (c : Gantry.gantry_command_t) (check_bytes : list Z)
  (g : Gantry.gantry_state) (il m0 m1 m2 m3 m4 status c0 c1 : Z) (rest : list Z) :
  RaspberryPi.rx (Gantry.rpi g) =
    RaspberryPi.START_BYTE :: il :: m0 :: m1 :: m2 :: m3 :: m4 :: status :: c0 :: c1 :: rest ->
  instruction il = RaspberryPi.ROBOT_MOVE_INSTR ->
  0 <= status < 256 ->
  Gantry.utils_validate_transmission ext
    [RaspberryPi.START_BYTE; il; m0; m1; m2; m3; m4; status] [c0; c1] = true ->
  let c' := fst (Gantry.gantry_robot_action ext c check_bytes g) in
  let after_human := status / 16 in
  let after_robot := status mod 16 in
  let decoded :=
    RaspberryPi.mkMove
      (Gantry.utils_byte_to_file ext m0) (Gantry.utils_byte_to_rank ext m1)
      (Gantry.utils_byte_to_file ext m2) (Gantry.utils_byte_to_rank ext m3)
      (Gantry.utils_byte_to_move_type ext m4) in
  (after_human = RaspberryPi.GAME_CHECKMATE ->
     Gantry.game_status c' = RaspberryPi.HUMAN_WIN /\
     RaspberryPi.move_type (Gantry.move c') = RaspberryPi.IDLE) /\
  (after_human <> RaspberryPi.GAME_CHECKMATE ->
   after_robot = RaspberryPi.GAME_CHECKMATE ->
     Gantry.game_status c' = RaspberryPi.ROBOT_WIN /\ Gantry.move c' = decoded) /\
  (after_human <> RaspberryPi.GAME_CHECKMATE ->
   after_robot <> RaspberryPi.GAME_CHECKMATE ->
   after_human = RaspberryPi.GAME_STALEMATE ->
     Gantry.game_status c' = RaspberryPi.STALEMATE /\
     RaspberryPi.move_type (Gantry.move c') = RaspberryPi.IDLE) /\
  (after_human <> RaspberryPi.GAME_CHECKMATE ->
   after_robot <> RaspberryPi.GAME_CHECKMATE ->
   after_human <> RaspberryPi.GAME_STALEMATE ->
   after_robot = RaspberryPi.GAME_STALEMATE ->
     Gantry.game_status c' = RaspberryPi.STALEMATE /\ Gantry.move c' = decoded) /\
  (after_human <> RaspberryPi.GAME_CHECKMATE ->
   after_robot <> RaspberryPi.GAME_CHECKMATE ->
   after_human <> RaspberryPi.GAME_STALEMATE ->
   after_robot <> RaspberryPi.GAME_STALEMATE ->
     Gantry.game_status c' = RaspberryPi.ONGOING /\ Gantry.move c' = decoded).
Proof.
  intros Hrx Hinstr Hstatus Hvalid c' after_human after_robot decoded.
  subst c'.
  rewrite (robot_action_robot_frame ext c check_bytes g il m0 m1 m2 m3 m4 status c0 c1 rest
             Hrx Hinstr), Hvalid.
  unfold Gantry.accept_robot_move. cbv zeta. cbn [fst].
  destruct (status_nibbles status Hstatus) as [-> ->].
  fold after_human after_robot.
  destruct (Z.eqb_spec after_human RaspberryPi.GAME_CHECKMATE) as [Ehc | Nhc];
    [| destruct (Z.eqb_spec after_robot RaspberryPi.GAME_CHECKMATE) as [Erc | Nrc];
       [| destruct (Z.eqb_spec after_human RaspberryPi.GAME_STALEMATE) as [Ehs | Nhs];
          [| destruct (Z.eqb_spec after_robot RaspberryPi.GAME_STALEMATE) as [Ers | Nrs]]]];
    repeat split; intros; try contradiction; reflexivity.
Qed.

(** The reply e7e5 with the status byte 0x11: the game is on and the move is
    decoded from the frame. *)
Lemma C3_status_byte_decides_game_status_witness :
  let c' := fst (Gantry.gantry_robot_action example_externals
                   (Gantry.gantry_robot_build_command example_externals) [0; 0]
                   (example_state_e2e4
                      [0x0A; 0x46; ch "e"; ch "7"; ch "e"; ch "5"; ch "_"; 0x11; 247; 181])) in
  Gantry.game_status c' = RaspberryPi.ONGOING /\
  Gantry.move c' = RaspberryPi.mkMove 4 6 4 4 RaspberryPi.MOVE.
Proof.
  refine (proj2 (proj2 (proj2 (proj2
    (C3_status_byte_decides_game_status example_externals
       (Gantry.gantry_robot_build_command example_externals) [0; 0]
       (example_state_e2e4
          [0x0A; 0x46; ch "e"; ch "7"; ch "e"; ch "5"; ch "_"; 0x11; 247; 181])
       0x46 (ch "e") (ch "7") (ch "e") (ch "5") (ch "_") 0x11 247 181 []
       eq_refl eq_refl ltac:(lia) eq_refl)))) _ _ _ _);
    vm_compute; intros Hn; discriminate Hn.
Defined.

(** C2.  The previous board advances only on a validated robot-move
    frame.  When the ten bytes of a robot-move frame wait on the
    link: if the two check bytes validate over the eight frame bytes, the
    previous board is set equal to the current board and the
    acknowledgement byte is sent; if they do not, the previous board is left
    as it was and nothing is sent.  When the four bytes of an illegal-move
    frame wait: the previous board is left as it was, and the
    acknowledgement byte is sent exactly when the check bytes validate.  When
    what waits is no frame (nothing, no start byte, another instruction, or a
    robot-move frame cut short before its status byte): the previous board is
    left as it was and nothing is sent. *)
Theorem C2_previous_board_advances_on_valid_robot_move
  (ext : Gantry.externals) (c : Gantry.gantry_command_t) (check_bytes : list Z)
  (g : Gantry.gantry_state) :
  let g' := snd (Gantry.gantry_robot_action ext c check_bytes g) in
  (forall il m0 m1 m2 m3 m4 status c0 c1 rest,
     RaspberryPi.rx (Gantry.rpi g) =
       RaspberryPi.START_BYTE :: il :: m0 :: m1 :: m2 :: m3 :: m4 :: status
       :: c0 :: c1 :: rest ->
     instruction il = RaspberryPi.ROBOT_MOVE_INSTR ->
     (Gantry.utils_validate_transmission ext
        [RaspberryPi.START_BYTE; il; m0; m1; m2; m3; m4; status] [c0; c1] = true ->
      Gantry.previous_board g' = Gantry.current_board g /\
      Gantry.current_board g' = Gantry.current_board g /\
      RaspberryPi.tx (Gantry.rpi g') =
        RaspberryPi.tx (Gantry.rpi g) ++ [RaspberryPi.ACK_BYTE]) /\
     (Gantry.utils_validate_transmission ext
        [RaspberryPi.START_BYTE; il; m0; m1; m2; m3; m4; status] [c0; c1] = false ->
      Gantry.previous_board g' = Gantry.previous_board g /\
      RaspberryPi.tx (Gantry.rpi g') = RaspberryPi.tx (Gantry.rpi g))) /\
  (forall il c0 c1 rest,
     RaspberryPi.rx (Gantry.rpi g) = RaspberryPi.START_BYTE :: il :: c0 :: c1 :: rest ->
     instruction il = RaspberryPi.ILLEGAL_MOVE_INSTR ->
     Gantry.previous_board g' = Gantry.previous_board g /\
     (Gantry.utils_validate_transmission ext [RaspberryPi.START_BYTE; il] [c0; c1] = true ->
      RaspberryPi.tx (Gantry.rpi g') =
        RaspberryPi.tx (Gantry.rpi g) ++ [RaspberryPi.ACK_BYTE]) /\
     (Gantry.utils_validate_transmission ext [RaspberryPi.START_BYTE; il] [c0; c1] = false ->
      RaspberryPi.tx (Gantry.rpi g') = RaspberryPi.tx (Gantry.rpi g))) /\
  (no_frame (RaspberryPi.rx (Gantry.rpi g)) ->
   Gantry.previous_board g' = Gantry.previous_board g /\
   RaspberryPi.tx (Gantry.rpi g') = RaspberryPi.tx (Gantry.rpi g)).
Proof.
  intros g'. subst g'. split; [| split].
  - intros il m0 m1 m2 m3 m4 status c0 c1 rest Hrx Hinstr.
    rewrite (robot_action_robot_frame ext c check_bytes g il m0 m1 m2 m3 m4 status c0 c1 rest
               Hrx Hinstr).
    split; intros Hvalid; rewrite Hvalid.
    + unfold Gantry.accept_robot_move, Gantry.utils_copy_array. cbn.
      split; [| split]; try reflexivity.
      by destruct (Gantry.current_board g).
    + cbn. split; reflexivity.
  - intros il c0 c1 rest Hrx Hinstr.
    rewrite (robot_action_illegal_frame ext c check_bytes g il c0 c1 rest Hrx Hinstr).
    split; [| split].
    + destruct (Gantry.utils_validate_transmission ext _ _); reflexivity.
    + intros ->. reflexivity.
    + intros ->. reflexivity.
  - intros Hno.
    destruct (robot_action_no_frame ext c check_bytes g Hno) as (_ & Hprev & Htx & _).
    split; [exact Hprev | exact Htx].
Qed.

(** The reply to e2e4: a valid frame for e7e5 brings the previous board up to
    the current one and is acknowledged; the same frame with a wrong check
    byte changes nothing. *)
Lemma C2_previous_board_advances_on_valid_robot_move_witness :
  let c := Gantry.gantry_robot_build_command example_externals in
  let good := [0x0A; 0x46; ch "e"; ch "7"; ch "e"; ch "5"; ch "_"; 0x11; 247; 181] in
  let bad := [0x0A; 0x46; ch "e"; ch "7"; ch "e"; ch "5"; ch "_"; 0x11; 247; 180] in
  let g1 := snd (Gantry.gantry_robot_action example_externals c [0; 0]
                   (example_state_e2e4 good)) in
  let g2 := snd (Gantry.gantry_robot_action example_externals c [0; 0]
                   (example_state_e2e4 bad)) in
  (Gantry.previous_board g1 = Gantry.current_board (example_state_e2e4 good) /\
   Gantry.current_board g1 = Gantry.current_board (example_state_e2e4 good) /\
   RaspberryPi.tx (Gantry.rpi g1) =
     RaspberryPi.tx (Gantry.rpi (example_state_e2e4 good)) ++ [RaspberryPi.ACK_BYTE]) /\
  (Gantry.previous_board g2 = Gantry.previous_board (example_state_e2e4 bad) /\
   RaspberryPi.tx (Gantry.rpi g2) = RaspberryPi.tx (Gantry.rpi (example_state_e2e4 bad))).
Proof.
  split.
  - exact (proj1 (proj1
      (C2_previous_board_advances_on_valid_robot_move example_externals
         (Gantry.gantry_robot_build_command example_externals) [0; 0]
         (example_state_e2e4
            [0x0A; 0x46; ch "e"; ch "7"; ch "e"; ch "5"; ch "_"; 0x11; 247; 181]))
      0x46 (ch "e") (ch "7") (ch "e") (ch "5") (ch "_") 0x11 247 181 []
      eq_refl eq_refl) eq_refl).
  - exact (proj2 (proj1
      (C2_previous_board_advances_on_valid_robot_move example_externals
         (Gantry.gantry_robot_build_command example_externals) [0; 0]
         (example_state_e2e4
            [0x0A; 0x46; ch "e"; ch "7"; ch "e"; ch "5"; ch "_"; 0x11; 247; 180]))
      0x46 (ch "e") (ch "7") (ch "e") (ch "5") (ch "_") 0x11 247 180 []
      eq_refl eq_refl) eq_refl).
Defined.

(** C2, the acknowledgement is not reserved to robot-move frames: an
    accepted illegal-move frame is not a robot-move frame, and the
    acknowledgement byte is transmitted for it. *)
Lemma C2_illegal_move_frame_is_acknowledged :
  let c := Gantry.gantry_robot_build_command example_externals in
  let g := example_state_e2e4 [0x0A; 0x50; 90; 100] in
  let g' := snd (Gantry.gantry_robot_action example_externals c [0; 0] g) in
  ~ (instruction 0x50 <> RaspberryPi.ROBOT_MOVE_INSTR ->
     Gantry.previous_board g' = Gantry.previous_board g /\
     RaspberryPi.tx (Gantry.rpi g') = RaspberryPi.tx (Gantry.rpi g)).
Proof.
  intros c g g' Hclaim.
  assert (instruction 0x50 <> RaspberryPi.ROBOT_MOVE_INSTR) as Hnot
    by (vm_compute; intros Hn; discriminate Hn).
  destruct (Hclaim Hnot) as [_ Htx].
  vm_compute in Htx. discriminate Htx.
Qed.

Example illegal_move_frame_ack :
  RaspberryPi.tx (Gantry.rpi (snd
    (Gantry.gantry_robot_action example_externals
       (Gantry.gantry_robot_build_command example_externals) [0; 0]
       (example_state_e2e4 [0x0A; 0x50; 90; 100]))))
  = [RaspberryPi.ACK_BYTE].
Proof. vm_compute. reflexivity. Qed.


(* ===================================================================== *)
(** ** Further properties of the command queue *)
(* ===================================================================== *)

Section QueueMore.

Import CommandQueue.

Context {A : Type} `{Inhabited A}.

Lemma wf_holds_contents (s : state A) : wf s -> holds s (contents s).
Proof.
  intros Hwf. pose proof Hwf as (Hq & Hh & Ht).
  assert (0 <= stored s < COMMAND_QUEUE_SIZE) as Hst
    by (apply Z.mod_pos_bound; unfold COMMAND_QUEUE_SIZE; lia).
  unfold holds, contents. split; [exact Hwf |].
  split.
  - rewrite length_fmap, length_seq, Z2Nat.id by lia. reflexivity.
  - intros k x Hk. rewrite list_lookup_fmap in Hk.
    destruct (seq 0 (Z.to_nat (stored s)) !! k) as [k' |] eqn:Hseq; [| discriminate Hk].
    apply lookup_seq in Hseq as [-> _]. simpl in Hk. injection Hk as <-.
    apply list_lookup_lookup_total_lt. rewrite Hq.
    pose proof (Z.mod_pos_bound (tail s + Z.of_nat k) COMMAND_QUEUE_SIZE) as Hb.
    unfold COMMAND_QUEUE_SIZE in *. lia.
Qed.

Lemma holds_contents (s : state A) (l : list A) : holds s l -> l = contents s.
Proof.
  intros (Hwf & Hlen & Hget). pose proof Hwf as (Hq & Hh & Ht).
  assert (0 <= stored s < COMMAND_QUEUE_SIZE) as Hst
    by (apply Z.mod_pos_bound; unfold COMMAND_QUEUE_SIZE; lia).
  apply list_eq. intros k. unfold contents. rewrite list_lookup_fmap.
  destruct (l !! k) as [x |] eqn:Hk.
  - pose proof (lookup_lt_Some _ _ _ Hk) as Hlt.
    rewrite (proj2 (lookup_seq 0 (Z.to_nat (stored s)) k k)) by (split; lia).
    simpl. apply Hget in Hk.
    rewrite (list_lookup_total_correct _ _ _ Hk). reflexivity.
  - apply lookup_ge_None in Hk.
    rewrite (proj2 (lookup_ge_None (seq 0 (Z.to_nat (stored s))) k)); [reflexivity |].
    rewrite length_seq. lia.
Qed.

Lemma push_wf (v : A) (s : state A) : wf s -> wf (snd (command_queue_push v s)).
Proof.
  intros Hwf. pose proof Hwf as (Hq & Hh & Ht).
  unfold command_queue_push.
  destruct (command_queue_get_size s =? COMMAND_QUEUE_SIZE); [exact Hwf |].
  cbv zeta. rewrite (wrap_succ (head s) Hh).
  unfold wf; simpl. rewrite length_insert.
  repeat split; try tauto; apply Z.mod_pos_bound; unfold COMMAND_QUEUE_SIZE; lia.
Qed.

Lemma pop_wf (s : state A) : wf s -> wf (snd (command_queue_pop s)).
Proof.
  intros Hwf. pose proof Hwf as (Hq & Hh & Ht).
  unfold command_queue_pop.
  destruct (command_queue_is_empty s); [exact Hwf |].
  cbv zeta. rewrite (wrap_succ (tail s) Ht).
  unfold wf; simpl.
  repeat split; try tauto; apply Z.mod_pos_bound; unfold COMMAND_QUEUE_SIZE; lia.
Qed.

Lemma clear_loop_holds (l : list A) : forall (fuel : nat) (s : state A),
  holds s l -> (length l < fuel)%nat ->
  exists s', clear_loop fuel s = Some (l, s') /\ holds s' [].
Proof.
  induction l as [| x l IH]; intros fuel s Hs Hfuel;
    (destruct fuel as [| fuel]; [simpl in Hfuel; lia |]); simpl.
  - destruct (empty_holds s Hs) as (_ & _ & Hpop). rewrite Hpop. by exists s.
  - destruct (pop_holds s x l Hs) as (s1 & Hpop & Hs1). rewrite Hpop.
    destruct (IH fuel s1 Hs1) as (s2 & Hloop & Hs2); [simpl in Hfuel; lia |].
    rewrite Hloop. by exists s2.
Qed.

End QueueMore.

(** The cursors never leave the array: from cursors inside the 128 slots, a
    push and a pop (accepted or refused) leave them inside, so the slot a
    push writes and the slot a pop reads always exist. *)
Theorem queue_cursors_stay_in_array {A : Type} `{Inhabited A}
  (v : A) (s : CommandQueue.state A) :
  CommandQueue.wf s ->
  CommandQueue.wf (snd (CommandQueue.command_queue_push v s)) /\
  CommandQueue.wf (snd (CommandQueue.command_queue_pop s)) /\
  (Z.to_nat (CommandQueue.head s) < length (CommandQueue.queue s))%nat /\
  (Z.to_nat (CommandQueue.tail s) < length (CommandQueue.queue s))%nat.
Proof.
  intros Hwf. split; [by apply push_wf |]. split; [by apply pop_wf |].
  destruct Hwf as (Hq & Hh & Ht). rewrite Hq.
  unfold CommandQueue.COMMAND_QUEUE_SIZE in *. lia.
Qed.

Lemma queue_cursors_stay_in_array_witness :
  let s := CommandQueue.mkState (replicate 128 0) 127 5 in
  CommandQueue.wf (snd (CommandQueue.command_queue_push 7 s)) /\
  CommandQueue.wf (snd (CommandQueue.command_queue_pop s)) /\
  (Z.to_nat (CommandQueue.head s) < length (CommandQueue.queue s))%nat /\
  (Z.to_nat (CommandQueue.tail s) < length (CommandQueue.queue s))%nat.
Proof.
  apply (queue_cursors_stay_in_array 7 (CommandQueue.mkState (replicate 128 0) 127 5)).
  unfold CommandQueue.wf, CommandQueue.COMMAND_QUEUE_SIZE. simpl. lia.
Defined.

(** What [command_queue_get_size] reports: the number of stored commands
    while [head] is not below [tail], and one more than that once [head] has
    wrapped below [tail]. *)
Theorem queue_size_reading {A : Type} `{Inhabited A}
  (s : CommandQueue.state A) (l : list A) :
  CommandQueue.holds s l ->
  (CommandQueue.tail s <= CommandQueue.head s ->
   CommandQueue.command_queue_get_size s = Z.of_nat (length l)) /\
  (CommandQueue.head s < CommandQueue.tail s ->
   CommandQueue.command_queue_get_size s = Z.of_nat (length l) + 1).
Proof.
  intros ((Hq & Hh & Ht) & Hlen & _).
  unfold CommandQueue.stored, CommandQueue.command_queue_get_size, u16,
    CommandQueue.COMMAND_QUEUE_SIZE in *.
  split; intros Hcmp.
  - destruct (Z.leb_spec (CommandQueue.tail s) (CommandQueue.head s)); [| lia].
    rewrite Z.mod_small in Hlen by lia. rewrite Z.mod_small by lia. lia.
  - destruct (Z.leb_spec (CommandQueue.tail s) (CommandQueue.head s)); [lia |].
    assert ((CommandQueue.head s - CommandQueue.tail s) mod 128
            = CommandQueue.head s - CommandQueue.tail s + 128) as Hm
      by (symmetry; apply (Z.mod_unique_pos _ _ (-1)); lia).
    rewrite Z.mod_small by lia. lia.
Qed.

(** With 127 commands stored the queue is at its limit.  If [tail] is not at
    slot 0 the next push is refused and changes nothing; if [tail] is at slot
    0 the push is accepted and the queue then reads as empty. *)
Theorem queue_push_at_127 {A : Type} `{Inhabited A}
  (v : A) (s : CommandQueue.state A) (l : list A) :
  CommandQueue.holds s l ->
  length l = 127%nat ->
  (CommandQueue.tail s <> 0 -> CommandQueue.command_queue_push v s = (false, s)) /\
  (CommandQueue.tail s = 0 ->
   fst (CommandQueue.command_queue_push v s) = true /\
   CommandQueue.command_queue_is_empty (snd (CommandQueue.command_queue_push v s)) = true /\
   CommandQueue.command_queue_get_size (snd (CommandQueue.command_queue_push v s)) = 0).
Proof.
  intros ((Hq & Hh & Ht) & Hlen & _) H127.
  unfold CommandQueue.stored, CommandQueue.COMMAND_QUEUE_SIZE in *.
  rewrite H127 in Hlen.
  split; intros Htail.
  - apply push_full.
    unfold CommandQueue.command_queue_get_size, u16, CommandQueue.COMMAND_QUEUE_SIZE.
    destruct (Z.leb_spec (CommandQueue.tail s) (CommandQueue.head s)).
    + rewrite Z.mod_small in Hlen by lia. lia.
    + assert ((CommandQueue.head s - CommandQueue.tail s) mod 128
              = CommandQueue.head s - CommandQueue.tail s + 128) as Hm
        by (symmetry; apply (Z.mod_unique_pos _ _ (-1)); lia).
      rewrite Z.mod_small by lia. lia.
  - rewrite Htail, Z.sub_0_r, Z.mod_small in Hlen by lia.
    unfold CommandQueue.command_queue_push, CommandQueue.command_queue_get_size,
      CommandQueue.command_queue_is_empty, u16, CommandQueue.COMMAND_QUEUE_SIZE.
    rewrite Htail, <- Hlen. simpl. done.
Qed.

(** First in, first out, from any state of the queue: with [l] stored and
    room for [vs] (127 commands at most in all), the pushes of [vs] all
    succeed, the pops then give [l] followed by [vs] in order, and the next
    pop fails on an empty queue. *)
Theorem queue_fifo_order {A : Type} `{Inhabited A}
  (s : CommandQueue.state A) (l vs : list A) :
  CommandQueue.holds s l ->
  (length l + length vs <= 127)%nat ->
  exists s1 s2,
    CommandQueue.push_all vs s = (replicate (length vs) true, s1) /\
    CommandQueue.pop_n (length l + length vs) s1 = (Some <$> (l ++ vs), s2) /\
    CommandQueue.command_queue_pop s2 = (None, s2) /\
    CommandQueue.command_queue_is_empty s2 = true.
Proof.
  intros Hs Hroom.
  destruct (push_all_holds vs s l Hs) as (s1 & Hpush & Hs1).
  { unfold CommandQueue.COMMAND_QUEUE_SIZE. lia. }
  destruct (pop_n_holds (l ++ vs) s1 Hs1) as (s2 & Hpop & Hs2).
  rewrite length_app in Hpop.
  destruct (empty_holds s2 Hs2) as (Hempty & _ & Hnone).
  by exists s1, s2.
Qed.

(** [command_queue_clear] ends within 128 iterations, returns true, frees
    exactly the commands stored from [tail] to [head], each once and oldest
    first, and leaves the queue empty. *)
Theorem queue_clear_frees_all {A : Type} `{Inhabited A} (s : CommandQueue.state A) :
  CommandQueue.wf s ->
  exists s',
    CommandQueue.command_queue_clear 128 s = Some (true, CommandQueue.contents s, s') /\
    CommandQueue.holds s' [] /\
    CommandQueue.command_queue_is_empty s' = true /\
    forall l, CommandQueue.holds s l -> CommandQueue.contents s = l.
Proof.
  intros Hwf.
  pose proof (wf_holds_contents s Hwf) as Hs.
  assert (length (CommandQueue.contents s) < 128)%nat as Hlen.
  { destruct Hs as ((Hq & Hh & Ht) & Hlen & _).
    pose proof (Z.mod_pos_bound (CommandQueue.head s - CommandQueue.tail s) 128).
    unfold CommandQueue.stored, CommandQueue.COMMAND_QUEUE_SIZE in *. lia. }
  destruct (clear_loop_holds _ 128 s Hs Hlen) as (s' & Hloop & Hs').
  exists s'. unfold CommandQueue.command_queue_clear. rewrite Hloop.
  split; [reflexivity |]. split; [exact Hs' |].
  split; [by destruct (empty_holds s' Hs') as (Hempty & _) |].
  intros l Hl. symmetry. by apply holds_contents.
Qed.

(** A queue whose [head] has wrapped: slots 126, 127, 0 and 1 are stored. *)
Lemma wrapped_queue_wf : CommandQueue.wf (CommandQueue.mkState (replicate 128 0) 2 126).
Proof. unfold CommandQueue.wf, CommandQueue.COMMAND_QUEUE_SIZE. simpl. lia. Qed.

Lemma queue_size_reading_witness :
  let s := CommandQueue.mkState (replicate 128 0) 2 126 in
  length (CommandQueue.contents s) = 4%nat /\
  CommandQueue.command_queue_get_size s = Z.of_nat (length (CommandQueue.contents s)) + 1.
Proof.
  split; [reflexivity |].
  apply (proj2 (queue_size_reading (CommandQueue.mkState (replicate 128 0) 2 126)
                  (CommandQueue.contents (CommandQueue.mkState (replicate 128 0) 2 126))
                  (wf_holds_contents _ wrapped_queue_wf))).
  simpl. lia.
Defined.

Lemma limit_queue_wf : CommandQueue.wf (CommandQueue.mkState (replicate 128 0) 4 5).
Proof. unfold CommandQueue.wf, CommandQueue.COMMAND_QUEUE_SIZE. simpl. lia. Qed.

Lemma queue_push_at_127_witness :
  let s := CommandQueue.mkState (replicate 128 0) 4 5 in
  CommandQueue.command_queue_push 9 s = (false, s).
Proof.
  apply (proj1 (queue_push_at_127 9 (CommandQueue.mkState (replicate 128 0) 4 5)
                  (CommandQueue.contents (CommandQueue.mkState (replicate 128 0) 4 5))
                  (wf_holds_contents _ limit_queue_wf) eq_refl)).
  simpl. lia.
Defined.

Lemma queue_fifo_order_witness :
  exists s1 s2,
    CommandQueue.push_all [11; 12; 13] CommandQueue.boot = (replicate 3 true, s1) /\
    CommandQueue.pop_n 3 s1 = (Some <$> [11; 12; 13], s2) /\
    CommandQueue.command_queue_pop s2 = (None, s2) /\
    CommandQueue.command_queue_is_empty s2 = true.
Proof.
  apply (queue_fifo_order CommandQueue.boot [] [11; 12; 13] boot_holds).
  simpl. lia.
Defined.

Lemma queue_clear_frees_all_witness :
  exists s',
    CommandQueue.command_queue_clear 128 (CommandQueue.mkState (replicate 128 0) 2 126)
    = Some (true, CommandQueue.contents (CommandQueue.mkState (replicate 128 0) 2 126), s') /\
    CommandQueue.holds s' [] /\
    CommandQueue.command_queue_is_empty s' = true /\
    forall l, CommandQueue.holds (CommandQueue.mkState (replicate 128 0) 2 126) l ->
              CommandQueue.contents (CommandQueue.mkState (replicate 128 0) 2 126) = l.
Proof.
  exact (queue_clear_frees_all (CommandQueue.mkState (replicate 128 0) 2 126)
           wrapped_queue_wf).
Defined.

(* ===================================================================== *)
(** ** Further properties of the chess board *)
(* ===================================================================== *)

(** [chessboard_square_to_index] returns an index of the board, from 0 to
    63, for any two characters, and 0 when neither is a file or rank
    character. *)
Theorem square_to_index_in_range (file rank : Z) :
  0 <= Chessboard.chessboard_square_to_index file rank <= 63 /\
  (~ Chessboard.is_file file -> ~ Chessboard.is_rank rank ->
   Chessboard.chessboard_square_to_index file rank = 0).
Proof.
  unfold Chessboard.chessboard_square_to_index, Chessboard.is_file, Chessboard.is_rank.
  cbv zeta.
  repeat match goal with
         | |- context [if ?x =? ?y then _ else _] =>
             destruct (Z.eqb_spec x y)
         end;
    subst; split; try (vm_compute; split; intros Hn; discriminate Hn);
    intros Hf Hr; try reflexivity;
    exfalso; (apply Hf; vm_compute; split; intros Hn; discriminate Hn)
             || (apply Hr; vm_compute; split; intros Hn; discriminate Hn).
Qed.

Lemma square_to_index_in_range_witness :
  Chessboard.chessboard_square_to_index (ch "?") (ch "?") = 0.
Proof.
  apply (proj2 (square_to_index_in_range (ch "?") (ch "?")));
    vm_compute; intros [Hlo Hhi];
    first [apply Hlo; reflexivity | apply Hhi; reflexivity].
Defined.

Section ChessboardMore.

Import Chessboard.

Lemma square_index_square_nat (f r : nat) :
  (f < 8)%nat -> (r < 8)%nat ->
  chessboard_index_to_square
    (chessboard_square_to_index (ch "a" + Z.of_nat f) (ch "1" + Z.of_nat r))
  = (ch "a" + Z.of_nat f, ch "1" + Z.of_nat r).
Proof.
  intros Hf Hr.
  assert (forallb (fun f => forallb (fun r =>
            let sq := chessboard_index_to_square
                        (chessboard_square_to_index (ch "a" + Z.of_nat f) (ch "1" + Z.of_nat r)) in
            (fst sq =? ch "a" + Z.of_nat f) && (snd sq =? ch "1" + Z.of_nat r))
            (seq 0 8)) (seq 0 8) = true) as Hall by (vm_compute; reflexivity).
  pose proof (bounded_forallb _ 8 Hall f Hf) as Hrow. cbv beta in Hrow.
  pose proof (bounded_forallb _ 8 Hrow r Hr) as Hcell. cbv beta zeta in Hcell.
  apply andb_prop in Hcell as [H1 H2].
  apply Z.eqb_eq in H1, H2.
  destruct (chessboard_index_to_square _) as [a b]. simpl in *. congruence.
Qed.

(** The characters of a square of the board are a file and a rank
    character. *)
Lemma square_chars_range (k : nat) :
  (k < 64)%nat ->
  is_file (fst (chessboard_index_to_square (Z.of_nat k))) /\
  is_rank (snd (chessboard_index_to_square (Z.of_nat k))).
Proof.
  intros Hk.
  assert (forallb (fun k =>
            let sq := chessboard_index_to_square (Z.of_nat k) in
            (ch "a" <=? fst sq) && (fst sq <=? ch "h")
            && (ch "1" <=? snd sq) && (snd sq <=? ch "8")) (seq 0 64) = true) as Hall
    by (vm_compute; reflexivity).
  pose proof (bounded_forallb _ 64 Hall k Hk) as Hcell. cbv beta zeta in Hcell.
  apply andb_prop in Hcell as [Hcell H4]. apply andb_prop in Hcell as [Hcell H3].
  apply andb_prop in Hcell as [H1 H2].
  unfold is_file, is_rank. lia.
Qed.

Lemma differing_lxor_comm (a b : Z) : differing (Z.lxor b a) = differing (Z.lxor a b).
Proof. by rewrite Z.lxor_comm. Qed.

End ChessboardMore.

(** The other round trip: a file from a to h and a rank from 1 to 8 are
    recovered from the index of their square. *)
Theorem square_index_square_round_trip (file rank : Z) :
  Chessboard.is_file file -> Chessboard.is_rank rank ->
  Chessboard.chessboard_index_to_square
    (Chessboard.chessboard_square_to_index file rank) = (file, rank).
Proof.
  unfold Chessboard.is_file, Chessboard.is_rank.
  change (ch "h") with (ch "a" + 7). change (ch "8") with (ch "1" + 7).
  intros Hf Hr.
  replace file with (ch "a" + Z.of_nat (Z.to_nat (file - ch "a"))) by lia.
  replace rank with (ch "1" + Z.of_nat (Z.to_nat (rank - ch "1"))) by lia.
  apply square_index_square_nat; lia.
Qed.

Lemma square_index_square_round_trip_witness :
  Chessboard.chessboard_index_to_square
    (Chessboard.chessboard_square_to_index (ch "g") (ch "8")) = (ch "g", ch "8").
Proof.
  apply (square_index_square_round_trip (ch "g") (ch "8"));
    vm_compute; split; intros Hn; discriminate Hn.
Defined.

(** After [chessboard_init] the two views of the board agree on every
    square: its presence bit is set exactly when the grid holds a piece
    character there. *)
Theorem init_presence_matches_pieces (board : Chessboard.chess_board_t) (k : nat) :
  (k < 64)%nat ->
  Z.testbit (Chessboard.board_presence (Chessboard.chessboard_init board)) (Z.of_nat k)
  = negb (Chessboard.piece_at (Chessboard.chessboard_init board) k =? 0).
Proof.
  intros Hk. apply eqb_prop. revert k Hk.
  apply (bounded_forallb
    (fun k => eqb (Z.testbit (Chessboard.board_presence (Chessboard.chessboard_init board))
                     (Z.of_nat k))
                  (negb (Chessboard.piece_at (Chessboard.chessboard_init board) k =? 0))) 64).
  vm_compute. reflexivity.
Qed.

Lemma init_presence_matches_pieces_witness :
  Z.testbit (Chessboard.board_presence
               (Chessboard.chessboard_init (Chessboard.mkBoard 0 []))) 12 = true /\
  Chessboard.piece_at (Chessboard.chessboard_init (Chessboard.mkBoard 0 [])) 12 = ch "P".
Proof.
  split; [| reflexivity].
  exact (init_presence_matches_pieces (Chessboard.mkBoard 0 []) 12 ltac:(lia)).
Defined.

(** Reading the boards the other way round gives the move the other way
    round: when the masks differ on exactly two squares, the move from
    [current] to [previous] has the source and destination of the move from
    [previous] to [current] exchanged. *)
Theorem get_move_reversed
  (WK WQ BK BQ : Z) (previous current : Chessboard.chess_board_t) (move : list Z) :
  length move = 5%nat ->
  length (Chessboard.differing
            (Z.lxor (Chessboard.board_presence previous)
                    (Chessboard.board_presence current))) = 2%nat ->
  exists source destination : nat,
    Chessboard.chessboard_get_move WK WQ BK BQ previous current move =
      (true, Chessboard.square_chars source ++ Chessboard.square_chars destination
             ++ [ch "_"]) /\
    Chessboard.chessboard_get_move WK WQ BK BQ current previous move =
      (true, Chessboard.square_chars destination ++ Chessboard.square_chars source
             ++ [ch "_"]).
Proof.
  intros Hlen Htwo.
  destruct (Chessboard.differing _) as [| i [| j [| k rest]]] eqn:Hd; try discriminate Htwo.
  pose proof (get_move_two WK WQ BK BQ previous current move i j Hlen Hd) as Hfwd.
  pose proof Hd as Hd'. rewrite <- differing_lxor_comm in Hd'.
  pose proof (get_move_two WK WQ BK BQ current previous move i j Hlen Hd') as Hbwd.
  assert (Z.testbit (Chessboard.board_presence current) (Z.of_nat i)
          = negb (Z.testbit (Chessboard.board_presence previous) (Z.of_nat i))) as Hflip.
  { assert (i ∈ Chessboard.differing
                  (Z.lxor (Chessboard.board_presence previous)
                          (Chessboard.board_presence current))) as Hin
      by (rewrite Hd; left).
    apply differing_bound in Hin as [_ Hbit].
    rewrite Z.lxor_spec in Hbit.
    destruct (Z.testbit (Chessboard.board_presence previous) (Z.of_nat i)),
             (Z.testbit (Chessboard.board_presence current) (Z.of_nat i));
      simpl in Hbit; try discriminate Hbit; reflexivity. }
  rewrite Hflip in Hbwd.
  destruct (Z.testbit (Chessboard.board_presence previous) (Z.of_nat i)).
  - exists i, j. split; [exact Hfwd | exact Hbwd].
  - exists j, i. split; [exact Hfwd | exact Hbwd].
Qed.

(** The move e2e4 read backwards is e4e2. *)
Lemma get_move_reversed_witness :
  exists source destination : nat,
    Chessboard.chessboard_get_move
      Chessboard.CASTLE_WHITE_K Chessboard.CASTLE_WHITE_Q
      Chessboard.CASTLE_BLACK_K Chessboard.CASTLE_BLACK_Q
      (Chessboard.mkBoard 0xFFFF00000000FFFF [])
      (Chessboard.mkBoard 0xFFFF00001000EFFF [])
      [ch "?"; ch "?"; ch "?"; ch "?"; ch "?"] =
      (true, Chessboard.square_chars source ++ Chessboard.square_chars destination
             ++ [ch "_"]) /\
    Chessboard.chessboard_get_move
      Chessboard.CASTLE_WHITE_K Chessboard.CASTLE_WHITE_Q
      Chessboard.CASTLE_BLACK_K Chessboard.CASTLE_BLACK_Q
      (Chessboard.mkBoard 0xFFFF00001000EFFF [])
      (Chessboard.mkBoard 0xFFFF00000000FFFF [])
      [ch "?"; ch "?"; ch "?"; ch "?"; ch "?"] =
      (true, Chessboard.square_chars destination ++ Chessboard.square_chars source
             ++ [ch "_"]).
Proof.
  exact (get_move_reversed
           Chessboard.CASTLE_WHITE_K Chessboard.CASTLE_WHITE_Q
           Chessboard.CASTLE_BLACK_K Chessboard.CASTLE_BLACK_Q
           (Chessboard.mkBoard 0xFFFF00000000FFFF [])
           (Chessboard.mkBoard 0xFFFF00001000EFFF [])
           [ch "?"; ch "?"; ch "?"; ch "?"; ch "?"] eq_refl eq_refl).
Defined.

(** What [chessboard_get_move] leaves in the buffer.  An accepted move is
    always a file, a rank, a file, a rank and an underscore, never the
    sentinel square; a rejected move leaves the buffer as it was. *)
Theorem get_move_buffer
  (WK WQ BK BQ : Z) (previous current : Chessboard.chess_board_t) (move : list Z) :
  let result := Chessboard.chessboard_get_move WK WQ BK BQ previous current move in
  length move = 5%nat ->
  (fst result = true ->
   exists f1 r1 f2 r2,
     snd result = [f1; r1; f2; r2; ch "_"] /\
     Chessboard.is_file f1 /\ Chessboard.is_rank r1 /\
     Chessboard.is_file f2 /\ Chessboard.is_rank r2) /\
  (fst result = false -> snd result = move).
Proof.
  intros result Hlen. subst result.
  assert (forall a b c d,
            Chessboard.is_file a -> Chessboard.is_rank b ->
            Chessboard.is_file c -> Chessboard.is_rank d ->
            forall r, r = (true, [a; b; c; d; ch "_"]) ->
            (fst r = true ->
             exists f1 r1 f2 r2,
               snd r = [f1; r1; f2; r2; ch "_"] /\
               Chessboard.is_file f1 /\ Chessboard.is_rank r1 /\
               Chessboard.is_file f2 /\ Chessboard.is_rank r2) /\
            (fst r = false -> snd r = move)) as Hok.
  { intros a b c d Ha Hb Hc Hd r ->. split.
    - intros _. exists a, b, c, d. simpl. tauto.
    - intros Hn. discriminate Hn. }
  assert (forall c, ch "a" <= c <= ch "h" -> Chessboard.is_file c) as Hfile by (intros; assumption).
  assert (forall c, ch "1" <= c <= ch "8" -> Chessboard.is_rank c) as Hrank by (intros; assumption).
  destruct (Chessboard.differing
              (Z.lxor (Chessboard.board_presence previous)
                      (Chessboard.board_presence current)))
    as [| i [| j [| k [| n rest]]]] eqn:Hd.
  1, 2, 4: rewrite get_move_count, Hd; simpl; split; [intros Hn; discriminate Hn | reflexivity].
  - (* two squares *)
    assert (i ∈ Chessboard.differing
                  (Z.lxor (Chessboard.board_presence previous)
                          (Chessboard.board_presence current))) as Hi by (rewrite Hd; left).
    assert (j ∈ Chessboard.differing
                  (Z.lxor (Chessboard.board_presence previous)
                          (Chessboard.board_presence current))) as Hj
      by (rewrite Hd; right; left).
    apply differing_bound in Hi as [Hi _].
    apply differing_bound in Hj as [Hj _].
    destruct (square_chars_range i Hi) as [Hfi Hri].
    destruct (square_chars_range j Hj) as [Hfj Hrj].
    rewrite (get_move_two WK WQ BK BQ previous current move i j Hlen Hd).
    destruct (Z.testbit (Chessboard.board_presence previous) (Z.of_nat i));
      unfold Chessboard.square_chars; cbv zeta;
      eapply Hok; try reflexivity; assumption.
  - (* four squares or more *)
    rewrite get_move_count, Hd. cbv zeta.
    rewrite !store_move_5 by exact Hlen.
    destruct rest as [| m rest'].
    + change (Z.of_nat (length [i; j; k; n]) =? 2) with false.
      change (Z.of_nat (length [i; j; k; n]) =? 4) with true. cbv iota.
      repeat match goal with
             | |- context [if ?x =? ?y then _ else _] => destruct (x =? y)
             end;
        try (eapply Hok; [| | | | reflexivity];
             first [apply Hfile | apply Hrank]; vm_compute; split; intros Hn; discriminate Hn).
      simpl. split; [intros Hn; discriminate Hn | reflexivity].
    + assert ((Z.of_nat (length (i :: j :: k :: n :: m :: rest')) =? 2) = false) as ->
        by (apply Z.eqb_neq; simpl length; lia).
      assert ((Z.of_nat (length (i :: j :: k :: n :: m :: rest')) =? 4) = false) as ->
        by (apply Z.eqb_neq; simpl length; lia).
      simpl. split; [intros Hn; discriminate Hn | reflexivity].
Qed.

Lemma get_move_buffer_witness :
  Chessboard.chessboard_get_move
    Chessboard.CASTLE_WHITE_K Chessboard.CASTLE_WHITE_Q
    Chessboard.CASTLE_BLACK_K Chessboard.CASTLE_BLACK_Q
    (Chessboard.mkBoard 0xFFFF00000000FFFF [])
    (Chessboard.mkBoard 0xFFFF00000000EFFF [])
    [ch "?"; ch "?"; ch "?"; ch "?"; ch "?"]
  = (false, [ch "?"; ch "?"; ch "?"; ch "?"; ch "?"]).
Proof.
  pose proof (get_move_buffer
                Chessboard.CASTLE_WHITE_K Chessboard.CASTLE_WHITE_Q
                Chessboard.CASTLE_BLACK_K Chessboard.CASTLE_BLACK_Q
                (Chessboard.mkBoard 0xFFFF00000000FFFF [])
                (Chessboard.mkBoard 0xFFFF00000000EFFF [])
                [ch "?"; ch "?"; ch "?"; ch "?"; ch "?"] eq_refl) as [_ Hrej].
  specialize (Hrej eq_refl).
  apply injective_projections; [reflexivity | exact Hrej].
Defined.

(* ===================================================================== *)
(** ** Further properties of the switches *)
(* ===================================================================== *)

(** Whatever the state and the reading, after the handler every mask it
    wrote fits in 16 bits and the edge mask is the union of the rising and
    the falling mask. *)
Theorem switch_masks (image : Z) (switches : Switch.switch_state_t) :
  let after := Switch.SWITCH_HANDLER image switches in
  Switch.edges after
    = Z.lor (Switch.pos_transitions after) (Switch.neg_transitions after) /\
  0 <= Switch.current_inputs after < 65536 /\
  0 <= Switch.edges after < 65536 /\
  0 <= Switch.pos_transitions after < 65536 /\
  0 <= Switch.neg_transitions after < 65536.
Proof.
  cbv zeta. unfold Switch.SWITCH_HANDLER. cbn.
  repeat split; try (apply Z.mod_pos_bound; lia).
  apply Z.bits_inj'. intros n Hn.
  rewrite Z.lor_spec, !testbit_u16, !Z.land_spec, Z.lnot_spec, !testbit_u16 by lia.
  destruct (n <? 16), (Z.testbit image n),
    (Z.testbit (Z.lxor (u16 image) (Switch.previous_inputs switches)) n); reflexivity.
Qed.

(** A steady input gives no edges: when two interrupts in a row read the
    same value, the second leaves the edge, rising and falling masks all
    zero. *)
Theorem switch_steady_input (image : Z) (switches : Switch.switch_state_t) :
  let after := Switch.SWITCH_HANDLER image (Switch.SWITCH_HANDLER image switches) in
  Switch.edges after = 0 /\
  Switch.pos_transitions after = 0 /\
  Switch.neg_transitions after = 0 /\
  Switch.current_inputs after = u16 image.
Proof.
  cbv zeta. unfold Switch.SWITCH_HANDLER. cbn.
  rewrite Z.lxor_nilpotent.
  change (u16 0) with 0. rewrite !Z.land_0_r. change (u16 0) with 0.
  repeat split; reflexivity.
Qed.

(* ===================================================================== *)
(** ** Further properties of the link *)
(* ===================================================================== *)

Section LinkMore.

Import RaspberryPi.

Lemma transmit_string_none (memory : list Z) : forall u,
  ~ In 0 memory -> transmit_string memory u = None.
Proof.
  induction memory as [| c memory IH]; intros u Hno; simpl; [reflexivity |].
  destruct (Z.eqb_spec c 0) as [-> | Hc].
  - exfalso. apply Hno. by left.
  - apply IH. intros Hin. apply Hno. by right.
Qed.

End LinkMore.

(** The human-move transmission in general: when the memory at [move] holds
    a zero byte, the start byte, the byte 0x35 and the characters before the
    first zero byte are put on the wire, however many they are, and the
    receive side is not touched; when it holds none the loop does not end
    within it. *)
Theorem human_move_transmission (memory : list Z) (u : RaspberryPi.uart) :
  (In 0 memory ->
   exists u',
     RaspberryPi.rpi_transmit_human_move memory u = Some u' /\
     RaspberryPi.tx u' =
       RaspberryPi.tx u ++ [0x0A; 0x35] ++ (u8 <$> c_string memory) /\
     RaspberryPi.rx u' = RaspberryPi.rx u) /\
  (~ In 0 memory -> RaspberryPi.rpi_transmit_human_move memory u = None).
Proof.
  unfold RaspberryPi.rpi_transmit_human_move. cbv zeta. split.
  - intros Hin.
    destruct (transmit_string_total memory
                (RaspberryPi.uart_out_byte RaspberryPi.HUMAN_MOVE_INSTR_AND_LEN
                   (RaspberryPi.uart_out_byte RaspberryPi.START_BYTE u)) Hin) as (u' & Hsend).
    exists u'. split; [exact Hsend |].
    apply transmit_string_c_string in Hsend as [Htx Hrx]. simpl in *.
    rewrite Htx, <- !app_assoc. split; [reflexivity | exact Hrx].
  - intros Hno. by apply transmit_string_none.
Qed.

Lemma human_move_transmission_witness :
  exists u',
    RaspberryPi.rpi_transmit_human_move [ch "a"; ch "7"; 0; ch "x"] (RaspberryPi.mkUart [1] [2])
      = Some u' /\
    RaspberryPi.tx u' = [2] ++ [0x0A; 0x35] ++ (u8 <$> c_string [ch "a"; ch "7"; 0; ch "x"]) /\
    RaspberryPi.rx u' = [1].
Proof.
  apply (proj1 (human_move_transmission [ch "a"; ch "7"; 0; ch "x"]
                  (RaspberryPi.mkUart [1] [2]))).
  right. right. left. reflexivity.
Defined.

(** The instructions without operand.  [rpi_transmit_reset] puts two bytes
    on the wire, the start byte and 0x00; [rpi_transmit_start] puts the start
    byte and 0x10 for the color W, the start byte and 0x20 for the color B,
    and nothing at all for any other color.  No check bytes follow, and the
    receive side is not touched. *)
Theorem start_and_reset_transmission (color : Z) (u : RaspberryPi.uart) :
  RaspberryPi.tx (RaspberryPi.rpi_transmit_reset u) = RaspberryPi.tx u ++ [0x0A; 0x00] /\
  RaspberryPi.rx (RaspberryPi.rpi_transmit_reset u) = RaspberryPi.rx u /\
  RaspberryPi.rx (RaspberryPi.rpi_transmit_start color u) = RaspberryPi.rx u /\
  (color = ch "W" ->
   RaspberryPi.tx (RaspberryPi.rpi_transmit_start color u) = RaspberryPi.tx u ++ [0x0A; 0x10]) /\
  (color = ch "B" ->
   RaspberryPi.tx (RaspberryPi.rpi_transmit_start color u) = RaspberryPi.tx u ++ [0x0A; 0x20]) /\
  (color <> ch "W" -> color <> ch "B" -> RaspberryPi.rpi_transmit_start color u = u).
Proof.
  unfold RaspberryPi.rpi_transmit_reset, RaspberryPi.rpi_transmit_start. cbv zeta.
  split; [simpl; by rewrite <- app_assoc |]. split; [reflexivity |].
  split; [| split; [| split]].
  - destruct (color =? ch "W"); [reflexivity |].
    destruct (color =? ch "B"); reflexivity.
  - intros ->. simpl. by rewrite <- app_assoc.
  - intros ->. simpl. by rewrite <- app_assoc.
  - intros HW HB.
    destruct (Z.eqb_spec color (ch "W")); [contradiction |].
    destruct (Z.eqb_spec color (ch "B")); [contradiction | reflexivity].
Qed.

Lemma start_and_reset_transmission_witness :
  RaspberryPi.rpi_transmit_start (ch "w") (RaspberryPi.mkUart [] [])
  = RaspberryPi.mkUart [] [].
Proof.
  apply (proj2 (proj2 (proj2 (proj2 (proj2
    (start_and_reset_transmission (ch "w") (RaspberryPi.mkUart [] [])))))));
    vm_compute; intros Hn; discriminate Hn.
Defined.

(* ===================================================================== *)
(** ** Further properties of the turn tasks *)
(* ===================================================================== *)

Section TasksMore.

Import Chessboard RaspberryPi Gantry.

Variable ext : externals.

Lemma entry_keeps_link (c : gantry_command_t) (g : gantry_state) :
  rpi (snd (gantry_robot_entry ext c g)) = rpi g /\
  previous_board (snd (gantry_robot_entry ext c g)) = previous_board g /\
  current_board (snd (gantry_robot_entry ext c g)) = current_board g /\
  robot_is_done (snd (gantry_robot_entry ext c g)) = false.
Proof. by destruct g. Qed.

Lemma compile_idle (m : chess_move_t) :
  move_type m = IDLE -> compile_move ext m = [].
Proof. intros Hm. unfold compile_move. by rewrite Hm. Qed.

Lemma comm_action_send (c : gantry_command_t) (after : list Z) (g : gantry_state) :
  msg_ready_to_send g = true ->
  In 0 (move_to_send c ++ after) ->
  exists g1,
    gantry_comm_action c after g = Some g1 /\
    msg_ready_to_send g1 = false /\
    comm_timer_running g1 = true /\
    comm_is_done g1 = comm_is_done g /\
    tx (rpi g1) = tx (rpi g) ++ [START_BYTE; HUMAN_MOVE_INSTR_AND_LEN]
                  ++ (u8 <$> c_string (move_to_send c ++ after)).
Proof.
  intros Hflag Hnul.
  destruct (transmit_string_total (move_to_send c ++ after)
              (uart_out_byte HUMAN_MOVE_INSTR_AND_LEN (uart_out_byte START_BYTE (rpi g))) Hnul)
    as (u & Hsend).
  pose proof (transmit_string_c_string _ _ _ Hsend) as [Htx _].
  unfold gantry_comm_action, rpi_transmit_human_move.
  rewrite Hflag. cbv zeta. rewrite Hsend.
  eexists. split; [reflexivity |]. repeat split.
  simpl. rewrite Htx. simpl. rewrite <- !app_assoc. reflexivity.
Qed.

Lemma c_string_terminated (operand rest : list Z) :
  Forall (fun c => c <> 0) operand ->
  c_string (operand ++ 0 :: rest) = operand.
Proof.
  induction operand as [| c operand IH]; intros Hop; simpl; [reflexivity |].
  apply Forall_cons in Hop as [Hc Hop].
  destruct (Z.eqb_spec c 0); [contradiction |]. by rewrite IH.
Qed.

End TasksMore.

(** The robot-reply task is done only on an accepted frame.  After its
    entry, one run of the action sets [robot_is_done] exactly when the
    eight bytes of a robot-move frame or the two bytes of an illegal-move
    frame were waiting and the validator accepts them against the array
    [check_bytes]: the two bytes that follow the frame when two were
    waiting, and what the array held before when fewer were.  In every other
    case (nothing waiting, another first byte, another instruction, a
    robot-move frame cut short, a frame the validator refuses) the task
    stays not done. *)
Theorem robot_task_done_on_valid_frame
  (ext : Gantry.externals) (c : Gantry.gantry_command_t) (check_bytes : list Z)
  (g : Gantry.gantry_state) :
  let entered := Gantry.gantry_robot_entry ext c g in
  let done := Gantry.gantry_robot_is_done
                (snd (Gantry.gantry_robot_action ext (fst entered) check_bytes (snd entered))) in
  done = true <-> frame_accepted ext check_bytes (RaspberryPi.rx (Gantry.rpi g)).
Proof.
  intros entered done. subst done entered.
  destruct g as [rd cd flag running value pb cb [rxs txs] q].
  unfold Gantry.gantry_robot_is_done, Gantry.gantry_robot_entry,
    Gantry.gantry_robot_action, RaspberryPi.rpi_receive.
  destruct rxs as [| b rxs]; cbn -[Z.shiftr u8 Z.eqb].
  { split; intros H; [discriminate H | inversion H]. }
  destruct (Z.eqb_spec b RaspberryPi.START_BYTE) as [-> | Hb]; cbn -[Z.shiftr u8 Z.eqb].
  2: { split; intros H; [discriminate H | inversion H; subst; exfalso; apply Hb; reflexivity]. }
  destruct rxs as [| il rxs]; cbn -[Z.shiftr u8 Z.eqb].
  { split; intros H; [discriminate H | inversion H]. }
  fold (instruction il).
  destruct (Z.eqb_spec (instruction il) RaspberryPi.ROBOT_MOVE_INSTR) as [Hr | Hr].
  - assert (instruction il <> RaspberryPi.ILLEGAL_MOVE_INSTR) as Hi.
    { rewrite Hr. intros H; discriminate H. }
    destruct rxs as [| m0 [| m1 [| m2 [| m3 [| m4 [| status after]]]]]];
      cbn -[Z.shiftr u8 Z.eqb];
      try (split; intros H; [discriminate H | inversion H; contradiction]).
    assert (Gantry.utils_validate_transmission ext
              [RaspberryPi.START_BYTE; il; m0; m1; m2; m3; m4; status]
              (check_buffer check_bytes after) = true <->
            frame_accepted ext check_bytes
              (RaspberryPi.START_BYTE :: il :: m0 :: m1 :: m2 :: m3 :: m4 :: status :: after))
      as Hframe.
    { split; intros H.
      - apply robot_frame_accepted; [exact Hr | exact H].
      - inversion H; [assumption | contradiction]. }
    rewrite <- Hframe.
    destruct after as [| c0 [| c1 rest]]; cbn -[Z.shiftr u8 Z.eqb];
      destruct (Gantry.utils_validate_transmission ext _ _);
      cbn -[Z.shiftr u8 Z.eqb]; split; intros H; first [reflexivity | discriminate H].
  - destruct (Z.eqb_spec (instruction il) RaspberryPi.ILLEGAL_MOVE_INSTR) as [Hi | Hi].
    + assert (Gantry.utils_validate_transmission ext [RaspberryPi.START_BYTE; il]
                (check_buffer check_bytes rxs) = true <->
              frame_accepted ext check_bytes (RaspberryPi.START_BYTE :: il :: rxs))
        as Hframe.
      { split; intros H.
        - apply illegal_frame_accepted; [exact Hi | exact H].
        - inversion H; [contradiction | assumption]. }
      rewrite <- Hframe.
      destruct rxs as [| c0 [| c1 rest]]; cbn -[Z.shiftr u8 Z.eqb];
        destruct (Gantry.utils_validate_transmission ext _ _);
        cbn -[Z.shiftr u8 Z.eqb]; split; intros H; first [reflexivity | discriminate H].
    + cbn -[Z.shiftr u8 Z.eqb].
      split; intros H; [discriminate H | inversion H; contradiction].
Qed.

(** Only the two bytes of an illegal-move frame wait, and the array
    [check_bytes] happens to hold the check bytes of that frame: the task
    is done. *)
Lemma robot_task_done_on_valid_frame_witness :
  Gantry.gantry_robot_is_done
    (snd (Gantry.gantry_robot_action example_externals
            (fst (Gantry.gantry_robot_entry example_externals
                    (Gantry.gantry_robot_build_command example_externals)
                    (example_state_e2e4 [0x0A; 0x50])))
            [90; 100]
            (snd (Gantry.gantry_robot_entry example_externals
                    (Gantry.gantry_robot_build_command example_externals)
                    (example_state_e2e4 [0x0A; 0x50])))))
  = true.
Proof.
  apply (proj2 (robot_task_done_on_valid_frame example_externals
                  (Gantry.gantry_robot_build_command example_externals) [90; 100]
                  (example_state_e2e4 [0x0A; 0x50]))).
  apply illegal_frame_accepted; reflexivity.
Defined.

(** A robot-move frame cut short is not accepted, whatever [check_bytes]
    holds. *)
Example robot_frame_cut_short_not_done :
  Gantry.gantry_robot_is_done
    (snd (Gantry.gantry_robot_action example_externals
            (fst (Gantry.gantry_robot_entry example_externals
                    (Gantry.gantry_robot_build_command example_externals)
                    (example_state_e2e4 [0x0A; 0x46; ch "e"])))
            [0; 0]
            (snd (Gantry.gantry_robot_entry example_externals
                    (Gantry.gantry_robot_build_command example_externals)
                    (example_state_e2e4 [0x0A; 0x46; ch "e"])))))
  = false.
Proof. reflexivity. Qed.

(** The reply "illegal move".  For a robot command as built, entered and run
    on a validated illegal-move frame, the frame is acknowledged, the
    previous board is left as it was, and the exit pushes one command only:
    a fresh human-sense command. *)
Theorem illegal_move_reply_prompts_human
  (ext : Gantry.externals) (check_bytes : list Z) (g : Gantry.gantry_state)
  (il c0 c1 : Z) (rest : list Z) :
  RaspberryPi.rx (Gantry.rpi g) = RaspberryPi.START_BYTE :: il :: c0 :: c1 :: rest ->
  instruction il = RaspberryPi.ILLEGAL_MOVE_INSTR ->
  Gantry.utils_validate_transmission ext [RaspberryPi.START_BYTE; il] [c0; c1] = true ->
  let entered := Gantry.gantry_robot_entry ext (Gantry.gantry_robot_build_command ext) g in
  let acted := Gantry.gantry_robot_action ext (fst entered) check_bytes (snd entered) in
  Gantry.gantry_robot_exit_pushes ext (fst acted)
    = [Gantry.gantry_command (Gantry.gantry_human_build_command ext)] /\
  Gantry.previous_board (snd acted) = Gantry.previous_board g /\
  RaspberryPi.tx (Gantry.rpi (snd acted))
    = RaspberryPi.tx (Gantry.rpi g) ++ [RaspberryPi.ACK_BYTE] /\
  Gantry.gantry_robot_is_done (snd acted) = true.
Proof.
  intros Hrx Hinstr Hvalid entered acted. subst acted.
  destruct (entry_keeps_link ext (Gantry.gantry_robot_build_command ext) g)
    as (Hrpi & Hprev & _ & _).
  fold entered in Hrpi, Hprev. rewrite <- Hrpi in Hrx.
  rewrite (robot_action_illegal_frame ext _ check_bytes _ il c0 c1 rest Hrx Hinstr), Hvalid.
  cbn [fst snd]. split; [| split; [| split]].
  - reflexivity.
  - rewrite <- Hprev. by destruct (snd entered).
  - rewrite <- Hrpi. by destruct (snd entered).
  - reflexivity.
Qed.

Lemma illegal_move_reply_prompts_human_witness :
  let entered := Gantry.gantry_robot_entry example_externals
                   (Gantry.gantry_robot_build_command example_externals)
                   (example_state_e2e4 [0x0A; 0x50; 90; 100]) in
  let acted := Gantry.gantry_robot_action example_externals (fst entered) [0; 0]
                 (snd entered) in
  Gantry.gantry_robot_exit_pushes example_externals (fst acted)
    = [Gantry.gantry_command (Gantry.gantry_human_build_command example_externals)] /\
  Gantry.previous_board (snd acted)
    = Gantry.previous_board (example_state_e2e4 [0x0A; 0x50; 90; 100]) /\
  RaspberryPi.tx (Gantry.rpi (snd acted))
    = RaspberryPi.tx (Gantry.rpi (example_state_e2e4 [0x0A; 0x50; 90; 100]))
      ++ [RaspberryPi.ACK_BYTE] /\
  Gantry.gantry_robot_is_done (snd acted) = true.
Proof.
  exact (illegal_move_reply_prompts_human example_externals [0; 0]
           (example_state_e2e4 [0x0A; 0x50; 90; 100]) 0x50 90 100 []
           eq_refl eq_refl eq_refl).
Defined.

(** Checkmate by the human.  For a robot command as built, entered and run on
    a validated robot-move frame whose status byte has checkmate in its high
    half, the exit pushes no command at all, neither motion nor a
    human-sense command; the move of the frame is still recorded in
    [robot_move_uci], and the exit still applies it to the previous board,
    which the action had set to the current board. *)
Theorem human_checkmate_ends_the_chain
  (ext : Gantry.externals) (check_bytes : list Z) (g : Gantry.gantry_state)
  (il m0 m1 m2 m3 m4 status c0 c1 : Z) (rest : list Z) :
  RaspberryPi.rx (Gantry.rpi g) =
    RaspberryPi.START_BYTE :: il :: m0 :: m1 :: m2 :: m3 :: m4 :: status :: c0 :: c1 :: rest ->
  instruction il = RaspberryPi.ROBOT_MOVE_INSTR ->
  Gantry.utils_validate_transmission ext
    [RaspberryPi.START_BYTE; il; m0; m1; m2; m3; m4; status] [c0; c1] = true ->
  0 <= status < 256 ->
  status / 16 = RaspberryPi.GAME_CHECKMATE ->
  length (Gantry.robot_move_uci (Gantry.malloc_block ext)) = 5%nat ->
  let entered := Gantry.gantry_robot_entry ext (Gantry.gantry_robot_build_command ext) g in
  let acted := Gantry.gantry_robot_action ext (fst entered) check_bytes (snd entered) in
  Gantry.gantry_robot_exit_pushes ext (fst acted) = [] /\
  Gantry.robot_move_uci (fst acted) = [m0; m1; m2; m3; m4] /\
  Gantry.commands (Gantry.gantry_robot_exit ext (fst acted) (snd acted)) = Gantry.commands g /\
  Gantry.previous_board (Gantry.gantry_robot_exit ext (fst acted) (snd acted))
    = Gantry.chessboard_update_robot_move ext [m0; m1; m2; m3; m4] (Gantry.current_board g).
Proof.
  intros Hrx Hinstr Hvalid Hstatus Hmate Hlen entered acted.
  destruct (entry_keeps_link ext (Gantry.gantry_robot_build_command ext) g)
    as (Hrpi & _ & Hcur & _).
  fold entered in Hrpi, Hcur. rewrite <- Hrpi in Hrx.
  assert (acted =
          Gantry.accept_robot_move ext [m0; m1; m2; m3; m4] status (fst entered)
            (Gantry.set_rpi
               {| RaspberryPi.rx := rest;
                  RaspberryPi.tx := RaspberryPi.tx (Gantry.rpi (snd entered))
                                    ++ [RaspberryPi.ACK_BYTE] |} (snd entered))) as ->.
  { subst acted.
    rewrite (robot_action_robot_frame ext _ check_bytes _ il m0 m1 m2 m3 m4 status c0 c1 rest
               Hrx Hinstr), Hvalid. reflexivity. }
  unfold Gantry.accept_robot_move. cbv zeta.
  destruct (status_nibbles status Hstatus) as [-> _]. rewrite Hmate.
  change (RaspberryPi.GAME_CHECKMATE =? RaspberryPi.GAME_CHECKMATE) with true. cbv iota.
  assert (Chessboard.store_move
            ([m0; m1; m2; m3; m4] !!! 0%nat) ([m0; m1; m2; m3; m4] !!! 1%nat)
            ([m0; m1; m2; m3; m4] !!! 2%nat) ([m0; m1; m2; m3; m4] !!! 3%nat)
            ([m0; m1; m2; m3; m4] !!! 4%nat)
            (Gantry.robot_move_uci (fst entered)) = [m0; m1; m2; m3; m4]) as Huci.
  { rewrite store_move_5; [reflexivity |]. subst entered. simpl.
    unfold Chessboard.store_move. rewrite !length_insert. exact Hlen. }
  split; [reflexivity |]. split; [exact Huci |].
  unfold Gantry.gantry_robot_exit. cbv zeta.
  change (Gantry.gantry_robot_exit_pushes ext _) with (@nil Gantry.command_t).
  split.
  - subst entered. by destruct g.
  - cbn [fst snd Gantry.previous_board Gantry.set_commands Gantry.set_previous_board
         Gantry.set_robot_is_done Gantry.robot_move_uci Gantry.set_move_type
         Gantry.set_game_status Gantry.set_robot_move_uci].
    rewrite Huci. f_equal. rewrite <- Hcur.
    unfold Gantry.utils_copy_array. cbn.
    by destruct (Gantry.current_board g).
Qed.

Lemma human_checkmate_ends_the_chain_witness :
  let g := example_state_e2e4
             [0x0A; 0x46; ch "e"; ch "7"; ch "e"; ch "5"; ch "_"; 0x21; 8; 197] in
  let entered := Gantry.gantry_robot_entry example_externals
                   (Gantry.gantry_robot_build_command example_externals) g in
  let acted := Gantry.gantry_robot_action example_externals (fst entered) [0; 0]
                 (snd entered) in
  Gantry.gantry_robot_exit_pushes example_externals (fst acted) = [] /\
  Gantry.robot_move_uci (fst acted) = [ch "e"; ch "7"; ch "e"; ch "5"; ch "_"] /\
  Gantry.commands (Gantry.gantry_robot_exit example_externals (fst acted) (snd acted))
    = Gantry.commands g /\
  Gantry.previous_board (Gantry.gantry_robot_exit example_externals (fst acted) (snd acted))
    = Gantry.chessboard_update_robot_move example_externals
        [ch "e"; ch "7"; ch "e"; ch "5"; ch "_"] (Gantry.current_board g).
Proof.
  exact (human_checkmate_ends_the_chain example_externals [0; 0]
           (example_state_e2e4
              [0x0A; 0x46; ch "e"; ch "7"; ch "e"; ch "5"; ch "_"; 0x21; 8; 197])
           0x46 (ch "e") (ch "7") (ch "e") (ch "5") (ch "_") 0x21 8 197 []
           eq_refl eq_refl eq_refl ltac:(lia) eq_refl eq_refl).
Defined.

(** The move compiler.  A move of type IDLE, or one whose source file or
    source rank is the error value, compiles to no command at all; every
    other move compiles to a sequence that begins with a go-to-square
    command followed by the one-second delay and ends with the six homing
    commands. *)
Theorem compile_move_shape (ext : Gantry.externals) (m : RaspberryPi.chess_move_t) :
  (RaspberryPi.move_type m = RaspberryPi.IDLE \/ Gantry.source_missing ext m = true ->
   Gantry.compile_move ext m = []) /\
  (RaspberryPi.move_type m <> RaspberryPi.IDLE -> Gantry.source_missing ext m = false ->
   exists file rank middle,
     Gantry.compile_move ext m =
       Gantry.stepper_chess_xy_command file rank 1 1 :: Gantry.delay_command 1000
       :: middle ++ Gantry.gantry_home ext).
Proof.
  unfold Gantry.compile_move. split.
  - intros [Hidle | Hmiss].
    + rewrite Hidle. reflexivity.
    + rewrite Hmiss. by destruct (RaspberryPi.move_type m).
  - intros Hidle Hsrc. rewrite Hsrc.
    destruct (RaspberryPi.move_type m); try contradiction; cbv zeta;
      do 2 eexists;
      [ exists [Gantry.stepper_chess_xy_command (RaspberryPi.dest_file m)
                  (RaspberryPi.dest_rank m) 1 1; Gantry.delay_command 1000]
      | eexists [_; _; _; _; _; _]
      | eexists [_; _; _; _; _; _]
      | eexists [_; _; _; _; _]
      | eexists [_; _; _; _; _; _] ];
      reflexivity.
Qed.

Lemma compile_move_shape_witness :
  Gantry.compile_move example_externals
    (RaspberryPi.mkMove (-1) 6 4 4 RaspberryPi.CAPTURE) = [].
Proof.
  apply (proj1 (compile_move_shape example_externals
                  (RaspberryPi.mkMove (-1) 6 4 4 RaspberryPi.CAPTURE))).
  right. reflexivity.
Defined.

(** The human-sense task on a plain move.  When the sensor reading differs
    from the previous board on exactly two squares, the action records the
    reading as the current board without touching the previous one and
    clears [msp_illegal_move]; the exit then pushes one transmit command and
    sets [msg_ready_to_send].  The command carries the file letter and rank
    digit of a source square, those of a destination square and an
    underscore, where source and destination are the two differing squares
    and the source is one that is occupied on the previous board whenever
    one of the two is. *)
Theorem human_sense_accepts_two_squares
  (ext : Gantry.externals) (WK WQ BK BQ : Z) (c : Gantry.gantry_command_t)
  (board_reading : Z) (g : Gantry.gantry_state) (waiting : list Gantry.command_t) :
  let changes := Z.lxor (Chessboard.board_presence (Gantry.previous_board g))
                        (u64 board_reading) in
  length (Gantry.move_to_send c) = 5%nat ->
  length (Gantry.move_to_send (Gantry.malloc_block ext)) = 5%nat ->
  length (Chessboard.differing changes) = 2%nat ->
  CommandQueue.holds (Gantry.commands g) waiting ->
  (length waiting <= 126)%nat ->
  let acted := Gantry.gantry_human_action WK WQ BK BQ c board_reading g in
  let g2 := Gantry.gantry_human_exit ext (fst (fst acted)) (snd acted) (snd (fst acted)) in
  exists source destination : nat,
    let uci := Chessboard.square_name source ++ Chessboard.square_name destination
               ++ [ch "_"] in
    source <> destination /\
    (Chessboard.differing changes = [source; destination] \/
     Chessboard.differing changes = [destination; source]) /\
    (Z.testbit (Chessboard.board_presence (Gantry.previous_board g)) (Z.of_nat source) = true \/
     (Z.testbit (Chessboard.board_presence (Gantry.previous_board g)) (Z.of_nat source) = false /\
      Z.testbit (Chessboard.board_presence (Gantry.previous_board g)) (Z.of_nat destination)
        = false)) /\
    snd acted = false /\
    Gantry.move_to_send (fst (fst acted)) = uci /\
    Gantry.msg_ready_to_send g2 = true /\
    Gantry.previous_board g2 = Gantry.previous_board g /\
    Chessboard.board_presence (Gantry.current_board g2) = u64 board_reading /\
    Gantry.move_to_send (Gantry.gantry_comm_build_command ext uci) = uci /\
    CommandQueue.holds (Gantry.commands g2)
      (waiting ++ [Gantry.gantry_command (Gantry.gantry_comm_build_command ext uci)]).
Proof.
  intros changes Hc Hblock Htwo Hq Hroom acted g2.
  set (current := Chessboard.mkBoard (u64 board_reading)
                    (Chessboard.board_pieces (Gantry.current_board g))).
  destruct (two_squares_move WK WQ BK BQ (Gantry.previous_board g) current (Gantry.move_to_send c)
              Hc Htwo) as (s & d & Hsd & Hdiff & Hmv' & Hocc).
  exists s, d. cbv zeta.
  split; [exact Hsd |]. split; [exact Hdiff |]. split; [exact Hocc |].
  assert (Gantry.move_to_send
            (Gantry.gantry_comm_build_command ext
               (Chessboard.square_name s ++ Chessboard.square_name d ++ [ch "_"]))
          = Chessboard.square_name s ++ Chessboard.square_name d ++ [ch "_"]) as Hbuilt.
  { unfold Gantry.gantry_comm_build_command. cbn [Gantry.move_to_send].
    rewrite store_move_5 by exact Hblock. reflexivity. }
  subst g2 acted. unfold Gantry.gantry_human_action. cbv zeta.
  cbn [Gantry.previous_board Gantry.current_board Gantry.move_to_send].
  fold current. rewrite Hmv'. cbn [negb fst snd].
  unfold Gantry.gantry_human_exit.
  cbn [Gantry.move_to_send Gantry.commands Gantry.msg_ready_to_send Gantry.previous_board
       Gantry.current_board Gantry.set_commands Gantry.set_msg_ready_to_send
       Chessboard.board_presence].
  do 5 (split; [reflexivity |]). split; [exact Hbuilt |].
  destruct (push_holds
              (Gantry.gantry_command
                 (Gantry.gantry_comm_build_command ext
                    (Chessboard.square_name s ++ Chessboard.square_name d ++ [ch "_"])))
              (Gantry.commands g) waiting Hq) as (q & Hpush & Hq').
  { unfold CommandQueue.COMMAND_QUEUE_SIZE. lia. }
  rewrite Hpush. exact Hq'.
Qed.

(** From the starting position the sensors read e2 empty and e4 occupied:
    the command pushed carries two differing squares, the first of them
    occupied before. *)
Lemma human_sense_accepts_two_squares_witness :
  let g := example_state false [] in
  let changes := Z.lxor (Chessboard.board_presence (Gantry.previous_board g))
                        (u64 0xFFFF00001000EFFF) in
  let acted := Gantry.gantry_human_action
                 Chessboard.CASTLE_WHITE_K Chessboard.CASTLE_WHITE_Q
                 Chessboard.CASTLE_BLACK_K Chessboard.CASTLE_BLACK_Q
                 (Gantry.gantry_human_build_command example_externals)
                 0xFFFF00001000EFFF g in
  let g2 := Gantry.gantry_human_exit example_externals
              (fst (fst acted)) (snd acted) (snd (fst acted)) in
  exists source destination : nat,
    let uci := Chessboard.square_name source ++ Chessboard.square_name destination
               ++ [ch "_"] in
    source <> destination /\
    (Chessboard.differing changes = [source; destination] \/
     Chessboard.differing changes = [destination; source]) /\
    (Z.testbit (Chessboard.board_presence (Gantry.previous_board g)) (Z.of_nat source) = true \/
     (Z.testbit (Chessboard.board_presence (Gantry.previous_board g)) (Z.of_nat source) = false /\
      Z.testbit (Chessboard.board_presence (Gantry.previous_board g)) (Z.of_nat destination)
        = false)) /\
    snd acted = false /\
    Gantry.move_to_send (fst (fst acted)) = uci /\
    Gantry.msg_ready_to_send g2 = true /\
    Gantry.previous_board g2 = Gantry.previous_board g /\
    Chessboard.board_presence (Gantry.current_board g2) = u64 0xFFFF00001000EFFF /\
    Gantry.move_to_send (Gantry.gantry_comm_build_command example_externals uci) = uci /\
    CommandQueue.holds (Gantry.commands g2)
      ([] ++ [Gantry.gantry_command (Gantry.gantry_comm_build_command example_externals uci)]).
Proof.
  exact (human_sense_accepts_two_squares example_externals
           Chessboard.CASTLE_WHITE_K Chessboard.CASTLE_WHITE_Q
           Chessboard.CASTLE_BLACK_K Chessboard.CASTLE_BLACK_Q
           (Gantry.gantry_human_build_command example_externals)
           0xFFFF00001000EFFF (example_state false []) []
           eq_refl eq_refl eq_refl boot_holds ltac:(simpl; lia)).
Defined.

Example human_sense_e2e4 :
  Gantry.move_to_send (fst (fst
    (Gantry.gantry_human_action
       Chessboard.CASTLE_WHITE_K Chessboard.CASTLE_WHITE_Q
       Chessboard.CASTLE_BLACK_K Chessboard.CASTLE_BLACK_Q
       (Gantry.gantry_human_build_command example_externals)
       0xFFFF00001000EFFF (example_state false []))))
  = [ch "e"; ch "2"; ch "e"; ch "4"; ch "_"].
Proof. vm_compute. reflexivity. Qed.

(** The human-sense task on anything else.  When the sensor reading differs
    from the previous board on a number of squares other than two and four
    (none, one as for a capture, three as for en passant, five or more), the
    action sets [msp_illegal_move] and leaves the move buffer alone, and the
    exit pushes one fresh human-sense command and nothing for the link:
    [msg_ready_to_send] and the UART are as before. *)
Theorem human_sense_rejects_other_counts
  (ext : Gantry.externals) (WK WQ BK BQ : Z) (c : Gantry.gantry_command_t)
  (board_reading : Z) (g : Gantry.gantry_state) (waiting : list Gantry.command_t) :
  length (Chessboard.differing
            (Z.lxor (Chessboard.board_presence (Gantry.previous_board g))
                    (u64 board_reading))) <> 2%nat ->
  length (Chessboard.differing
            (Z.lxor (Chessboard.board_presence (Gantry.previous_board g))
                    (u64 board_reading))) <> 4%nat ->
  CommandQueue.holds (Gantry.commands g) waiting ->
  (length waiting <= 126)%nat ->
  let acted := Gantry.gantry_human_action WK WQ BK BQ c board_reading g in
  let g2 := Gantry.gantry_human_exit ext (fst (fst acted)) (snd acted) (snd (fst acted)) in
  snd acted = true /\
  Gantry.move_to_send (fst (fst acted)) = Gantry.move_to_send c /\
  Gantry.msg_ready_to_send g2 = Gantry.msg_ready_to_send g /\
  Gantry.rpi g2 = Gantry.rpi g /\
  Gantry.previous_board g2 = Gantry.previous_board g /\
  CommandQueue.holds (Gantry.commands g2)
    (waiting ++ [Gantry.gantry_command (Gantry.gantry_human_build_command ext)]).
Proof.
  intros N2 N4 Hq Hroom acted g2.
  set (current := Chessboard.mkBoard (u64 board_reading)
                    (Chessboard.board_pieces (Gantry.current_board g))).
  assert (Chessboard.chessboard_get_move WK WQ BK BQ (Gantry.previous_board g) current
            (Gantry.move_to_send c) = (false, Gantry.move_to_send c)) as Hmv.
  { rewrite get_move_count. cbv zeta. subst current. cbn [Chessboard.board_presence].
    destruct (Z.eqb_spec (Z.of_nat (length (Chessboard.differing
                (Z.lxor (Chessboard.board_presence (Gantry.previous_board g))
                        (u64 board_reading))))) 2) as [E | _]; [exfalso; apply N2; lia |].
    destruct (Z.eqb_spec (Z.of_nat (length (Chessboard.differing
                (Z.lxor (Chessboard.board_presence (Gantry.previous_board g))
                        (u64 board_reading))))) 4) as [E | _]; [exfalso; apply N4; lia |].
    reflexivity. }
  subst g2 acted. unfold Gantry.gantry_human_action. cbv zeta.
  cbn [Gantry.previous_board Gantry.current_board Gantry.move_to_send].
  fold current. rewrite Hmv. cbn [negb fst snd].
  unfold Gantry.gantry_human_exit.
  cbn [Gantry.move_to_send Gantry.commands Gantry.msg_ready_to_send Gantry.previous_board
       Gantry.current_board Gantry.set_commands Gantry.rpi].
  do 5 (split; [reflexivity |]).
  destruct (push_holds (Gantry.gantry_command (Gantry.gantry_human_build_command ext))
              (Gantry.commands g) waiting Hq) as (q & Hpush & Hq').
  { unfold CommandQueue.COMMAND_QUEUE_SIZE. lia. }
  rewrite Hpush. exact Hq'.
Qed.

(** A capture: the pawn on e4 is lifted and put on d5, where a piece stood;
    only e4 changes, and the human is asked again. *)
Lemma human_sense_rejects_other_counts_witness :
  let g := Gantry.mkGantry false false false false 0
             (Chessboard.mkBoard 0xFFF700081000EFFF []) (Chessboard.mkBoard 0 [])
             (RaspberryPi.mkUart [] []) CommandQueue.boot in
  let acted := Gantry.gantry_human_action
                 Chessboard.CASTLE_WHITE_K Chessboard.CASTLE_WHITE_Q
                 Chessboard.CASTLE_BLACK_K Chessboard.CASTLE_BLACK_Q
                 (Gantry.gantry_human_build_command example_externals)
                 0xFFF700080000EFFF g in
  let g2 := Gantry.gantry_human_exit example_externals
              (fst (fst acted)) (snd acted) (snd (fst acted)) in
  snd acted = true /\
  Gantry.move_to_send (fst (fst acted))
    = Gantry.move_to_send (Gantry.gantry_human_build_command example_externals) /\
  Gantry.msg_ready_to_send g2 = Gantry.msg_ready_to_send g /\
  Gantry.rpi g2 = Gantry.rpi g /\
  Gantry.previous_board g2 = Gantry.previous_board g /\
  CommandQueue.holds (Gantry.commands g2)
    ([] ++ [Gantry.gantry_command (Gantry.gantry_human_build_command example_externals)]).
Proof.
  apply (human_sense_rejects_other_counts example_externals
           Chessboard.CASTLE_WHITE_K Chessboard.CASTLE_WHITE_Q
           Chessboard.CASTLE_BLACK_K Chessboard.CASTLE_BLACK_Q
           (Gantry.gantry_human_build_command example_externals)
           0xFFF700080000EFFF
           (Gantry.mkGantry false false false false 0
              (Chessboard.mkBoard 0xFFF700081000EFFF []) (Chessboard.mkBoard 0 [])
              (RaspberryPi.mkUart [] []) CommandQueue.boot) []).
  - vm_compute. intros Hn. discriminate Hn.
  - vm_compute. intros Hn. discriminate Hn.
  - exact boot_holds.
  - simpl. lia.
Defined.

(** From the board to the wire.  For a transmit command built from a move of
    two squares of the board, with its flag set and a zero byte right after
    the five characters, the action puts exactly seven bytes on the wire:
    the start byte, 0x35 and the five characters of the move; no check bytes
    follow. *)
Theorem transmit_task_sends_the_move
  (ext : Gantry.externals) (source destination : nat) (rest : list Z)
  (g : Gantry.gantry_state) :
  (source < 64)%nat -> (destination < 64)%nat ->
  length (Gantry.move_to_send (Gantry.malloc_block ext)) = 5%nat ->
  Gantry.msg_ready_to_send g = true ->
  let uci := Chessboard.square_chars source ++ Chessboard.square_chars destination
             ++ [ch "_"] in
  exists g1,
    Gantry.gantry_comm_action (Gantry.gantry_comm_build_command ext uci) (0 :: rest) g
      = Some g1 /\
    RaspberryPi.tx (Gantry.rpi g1) = RaspberryPi.tx (Gantry.rpi g) ++ [0x0A; 0x35] ++ uci /\
    length (RaspberryPi.tx (Gantry.rpi g1)) = (length (RaspberryPi.tx (Gantry.rpi g)) + 7)%nat /\
    Gantry.msg_ready_to_send g1 = false.
Proof.
  intros Hs Hd Hblock Hflag uci.
  assert (Gantry.move_to_send (Gantry.gantry_comm_build_command ext uci) = uci) as Hbuilt.
  { unfold Gantry.gantry_comm_build_command. cbn [Gantry.move_to_send].
    rewrite store_move_5 by exact Hblock. reflexivity. }
  destruct (square_chars_range source Hs) as [Hfs Hrs].
  destruct (square_chars_range destination Hd) as [Hfd Hrd].
  assert (Forall (fun c => 0 < c < 256) uci) as Hchars.
  { subst uci. unfold Chessboard.square_chars, Chessboard.is_file, Chessboard.is_rank in *.
    cbv zeta. change (ch "a") with 97 in *. change (ch "h") with 104 in *.
    change (ch "1") with 49 in *. change (ch "8") with 56 in *. change (ch "_") with 95.
    repeat (apply Forall_cons; split; [lia |]). apply Forall_nil. exact I. }
  assert (c_string (uci ++ 0 :: rest) = uci) as Hstr.
  { apply c_string_terminated. eapply Forall_impl; [exact Hchars |]. simpl. lia. }
  destruct (comm_action_send (Gantry.gantry_comm_build_command ext uci) (0 :: rest) g Hflag)
    as (g1 & Hact & Hclear & _ & _ & Htx).
  { rewrite Hbuilt. apply in_or_app. right. by left. }
  rewrite Hbuilt, Hstr in Htx.
  assert (u8 <$> uci = uci) as Hu8.
  { clear -Hchars. induction Hchars as [| x l Hx _ IH]; [reflexivity |].
    rewrite fmap_cons, IH. unfold u8. rewrite Z.mod_small by lia. reflexivity. }
  rewrite Hu8 in Htx.
  exists g1. split; [exact Hact |]. split; [exact Htx |]. split; [| exact Hclear].
  rewrite Htx, !length_app. subst uci. rewrite !length_app. simpl. lia.
Qed.

Lemma transmit_task_sends_the_move_witness :
  exists g1,
    Gantry.gantry_comm_action
      (Gantry.gantry_comm_build_command example_externals
         (Chessboard.square_chars 12 ++ Chessboard.square_chars 28 ++ [ch "_"]))
      [0] (example_state true []) = Some g1 /\
    RaspberryPi.tx (Gantry.rpi g1) =
      RaspberryPi.tx (Gantry.rpi (example_state true [])) ++ [0x0A; 0x35]
      ++ (Chessboard.square_chars 12 ++ Chessboard.square_chars 28 ++ [ch "_"]) /\
    length (RaspberryPi.tx (Gantry.rpi g1))
      = (length (RaspberryPi.tx (Gantry.rpi (example_state true []))) + 7)%nat /\
    Gantry.msg_ready_to_send g1 = false.
Proof.
  apply (transmit_task_sends_the_move example_externals 12 28 [] (example_state true []));
    try reflexivity; lia.
Defined.



(** The exit of the transmit task pushes one robot-reply command and clears
    [comm_is_done], so that a later transmit task does not start out done;
    the link and the send flag are not touched. *)
Theorem comm_exit_enqueues_robot_reply
  (ext : Gantry.externals) (c : Gantry.gantry_command_t) (g : Gantry.gantry_state)
  (waiting : list Gantry.command_t) :
  CommandQueue.holds (Gantry.commands g) waiting ->
  (length waiting <= 126)%nat ->
  let g' := Gantry.gantry_comm_exit ext c g in
  CommandQueue.holds (Gantry.commands g')
    (waiting ++ [Gantry.gantry_command (Gantry.gantry_robot_build_command ext)]) /\
  Gantry.gantry_comm_is_done g' = false /\
  Gantry.msg_ready_to_send g' = Gantry.msg_ready_to_send g /\
  Gantry.rpi g' = Gantry.rpi g.
Proof.
  intros Hq Hroom g'. subst g'. unfold Gantry.gantry_comm_exit. cbv zeta.
  destruct (push_holds (Gantry.gantry_command (Gantry.gantry_robot_build_command ext))
              (Gantry.commands g) waiting Hq) as (q & Hpush & Hq').
  { unfold CommandQueue.COMMAND_QUEUE_SIZE. lia. }
  rewrite Hpush. split; [exact Hq' |]. split; [reflexivity |]. split; reflexivity.
Qed.

Lemma comm_exit_enqueues_robot_reply_witness :
  let g' := Gantry.gantry_comm_exit example_externals
              (Gantry.gantry_comm_build_command example_externals
                 [ch "e"; ch "2"; ch "e"; ch "4"; ch "_"])
              (example_state false []) in
  CommandQueue.holds (Gantry.commands g')
    ([] ++ [Gantry.gantry_command (Gantry.gantry_robot_build_command example_externals)]) /\
  Gantry.gantry_comm_is_done g' = false /\
  Gantry.msg_ready_to_send g' = Gantry.msg_ready_to_send (example_state false []) /\
  Gantry.rpi g' = Gantry.rpi (example_state false []).
Proof.
  exact (comm_exit_enqueues_robot_reply example_externals
           (Gantry.gantry_comm_build_command example_externals
              [ch "e"; ch "2"; ch "e"; ch "4"; ch "_"])
           (example_state false []) [] boot_holds ltac:(simpl; lia)).
Defined.


